(** * ts-api analyzer: registry, schema translation, relevance marking, emitters

    A shallow embedding of [src/analyzer.ts].  The TypeScript compiler API
    (parser, type checker) and the doctrine JSDoc parser are external: the
    syntax trees they produce are the input data of this development, and
    what the checker answers about a node is either stored in the node or
    taken as a section variable.

    Conventions.
    - A JavaScript object used as a dictionary ([symtab], [members],
      [paths], the definitions map) is an association list in insertion
      order, which is the order [for ... in] enumerates identifier keys.
    - A function that may [throw] returns an [outcome]; [OutOfFuel] is the
      outcome of a recursion that did not bottom out within the given fuel.
    - [null] and [undefined] are both [None]: the source only ever tests
      them with [== null], [!= null] or truthiness. *)

From Stdlib Require Import List String Ascii ZArith Bool Arith Lia DecimalString.
Import ListNotations.
Open Scope string_scope.

Set Implicit Arguments.
Set Warnings "-register-all".

(* ================================================================== *)
(** * Outcomes: normal return, exception, exhausted recursion budget   *)
(* ================================================================== *)

(** [Thrown msg] is a [throw(msg)] of the analyzer itself, [TypeError] a
    run-time error of the JavaScript engine (property access on
    [undefined], call of a non-function). *)
Inductive exn : Type :=
| Thrown (msg : string)
| TypeError (msg : string).

Inductive outcome (A : Type) : Type :=
| Ok (a : A)
| Throw (e : exn)
| OutOfFuel.

Arguments Ok {A} a.
Arguments Throw {A} e.
Arguments OutOfFuel {A}.

Definition bind {A B : Type} (m : outcome A) (k : A -> outcome B) : outcome B :=
  match m with
  | Ok a => k a
  | Throw e => Throw e
  | OutOfFuel => OutOfFuel
  end.

Notation "x <- m ;; k" := (bind m (fun x => k))
  (at level 61, m at next level, right associativity).
Notation "' p <- m ;; k" := (bind m (fun p => k))
  (at level 61, p pattern, m at next level, right associativity).

(** A [for] loop whose body threads a state and may throw. *)
Fixpoint forEach {A S : Type} (body : A -> S -> outcome S) (l : list A) (s : S)
  : outcome S :=
  match l with
  | [] => Ok s
  | a :: r => s' <- body a s ;; forEach body r s'
  end.

(* ================================================================== *)
(** * JavaScript objects as ordered dictionaries                        *)
(* ================================================================== *)

Section Dict.
Variable V : Type.

Definition dict := list (string * V).

(** [o[k]] *)
Fixpoint lookup (o : dict) (k : string) : option V :=
  match o with
  | [] => None
  | (k', v) :: r => if String.eqb k k' then Some v else lookup r k
  end.

(** [o[k] = v]: an existing key keeps its position, a new one goes last. *)
Fixpoint assign (o : dict) (k : string) (v : V) : dict :=
  match o with
  | [] => [(k, v)]
  | (k', v') :: r =>
      if String.eqb k k' then (k', v) :: r else (k', v') :: assign r k v
  end.

(** In-place update of the object stored under [k] (no-op without it). *)
Fixpoint update (o : dict) (k : string) (f : V -> V) : dict :=
  match o with
  | [] => []
  | (k', v') :: r =>
      if String.eqb k k' then (k', f v') :: r else (k', v') :: update r k f
  end.

Definition keys (o : dict) : list string := map fst o.
End Dict.

(* ================================================================== *)
(** * Strings                                                           *)
(* ================================================================== *)

(** [s.charAt(0) == c] *)
Definition firstCharIs (c : ascii) (s : string) : bool :=
  match s with
  | String a _ => Ascii.eqb a c
  | EmptyString => false
  end.

(** [s.charAt(s.length - 1) == c] *)
Fixpoint lastCharIs (c : ascii) (s : string) : bool :=
  match s with
  | EmptyString => false
  | String a EmptyString => Ascii.eqb a c
  | String _ r => lastCharIs c r
  end.

(** [s.substring(1)] *)
Definition dropFirst (s : string) : string :=
  match s with
  | String _ r => r
  | EmptyString => EmptyString
  end.

(** [s.substring(0, s.length - 1)] *)
Fixpoint dropLast (s : string) : string :=
  match s with
  | EmptyString => EmptyString
  | String _ EmptyString => EmptyString
  | String a r => String a (dropLast r)
  end.

(** The two lines that trim a controller or router path:
      [if(p.charAt(0) == '/') p = p.substring(1);]
      [if(p.charAt(p.length - 1) == '.') p = p.substring(0,p.length - 1);] *)
Definition stripPath (p : string) : string :=
  let p1 := if firstCharIs "/"%char p then dropFirst p else p in
  if lastCharIs "."%char p1 then dropLast p1 else p1.

(** [arr.join(sep)] *)
Fixpoint join (sep : string) (l : list string) : string :=
  match l with
  | [] => ""
  | [s] => s
  | s :: r => s ++ sep ++ join sep r
  end.

(* ================================================================== *)
(** * Numbers as [parseInt] yields them                                 *)
(* ================================================================== *)

(** The result of [parseInt]: [NaN] or an integer.  The integer is kept
    exact; a double holds it exactly up to 2^53. *)
Inductive JsNum : Type :=
| NaN
| Num (z : Z).

Definition isWhite (a : ascii) : bool :=
  let n := nat_of_ascii a in
  ((n =? 32) || ((9 <=? n) && (n <=? 13)))%nat.

Definition digitOf (radix : nat) (a : ascii) : option Z :=
  let n := nat_of_ascii a in
  let d :=
    (if (48 <=? n) && (n <=? 57) then Some (n - 48)
     else if (97 <=? n) && (n <=? 122) then Some (n - 87)
     else if (65 <=? n) && (n <=? 90) then Some (n - 55)
     else None)%nat in
  match d with
  | Some v => if (v <? radix)%nat then Some (Z.of_nat v) else None
  | None => None
  end.

Fixpoint skipWhite (s : string) : string :=
  match s with
  | String a r => if isWhite a then skipWhite r else s
  | EmptyString => s
  end.

(** Longest prefix of digits, most significant first. *)
Fixpoint readDigits (radix : nat) (s : string) (acc : option Z) : option Z :=
  match s with
  | String a r =>
      match digitOf radix a with
      | Some d =>
          readDigits radix r
            (Some (match acc with
                   | Some v => (v * Z.of_nat radix + d)%Z
                   | None => d
                   end))
      | None => acc
      end
  | EmptyString => acc
  end.

(** [parseInt(s)] with no radix argument: leading white space, an optional
    sign, an optional [0x] prefix, then digits; [NaN] without digits. *)
Definition parseIntString (s : string) : JsNum :=
  let s1 := skipWhite s in
  let '(neg, s2) :=
    match s1 with
    | String "-"%char r => (true, r)
    | String "+"%char r => (false, r)
    | _ => (false, s1)
    end in
  let '(radix, s3) :=
    match s2 with
    | String "0"%char (String "x"%char r) => (16, r)
    | String "0"%char (String "X"%char r) => (16, r)
    | _ => (10, s2)
    end in
  match readDigits radix s3 None with
  | Some v => Num (if neg then (- v)%Z else v)
  | None => NaN
  end.

(** [parseInt(x)] where [x] may be [undefined] (converted to the text
    "undefined", which has no digits). *)
Definition parseInt (x : option string) : JsNum :=
  match x with
  | Some s => parseIntString s
  | None => NaN
  end.

(* ================================================================== *)
(** * Schema fragments                                                  *)
(* ================================================================== *)

(** The resolved value of a literal type ([type.value]); a number is kept
    as the text JavaScript prints for it. *)
Inductive LitValue : Type :=
| VString (s : string)
| VNumber (shown : string).

(** [typeof v] *)
Definition typeofLit (v : LitValue) : string :=
  match v with
  | VString _ => "string"
  | VNumber _ => "number"
  end.

(** A JSON-schema object with the properties this program ever sets.  A
    field is [None] when the property is missing, [null] or [undefined].
    Two fragments are equal when they have the same properties with the
    same values, whatever the order the properties were assigned in. *)
Inductive Schema : Type :=
  mkSchema {
    s_type : option string;
    s_ref : option string;               (* "$ref" *)
    s_items : option Schema;
    s_oneOf : option (list Schema);
    s_format : option LitValue;
    s_properties : option (list (string * Schema));
    s_required : option (list string);
    s_description : option string;
    s_title : option string;
    s_minimum : option JsNum;
    s_maximum : option JsNum
  }.

(** [{}] *)
Definition emptySchema : Schema :=
  mkSchema None None None None None None None None None None None.

Definition setType (v : option string) (s : Schema) : Schema :=
  mkSchema v (s_ref s) (s_items s) (s_oneOf s) (s_format s) (s_properties s)
    (s_required s) (s_description s) (s_title s) (s_minimum s) (s_maximum s).
Definition setRef (v : option string) (s : Schema) : Schema :=
  mkSchema (s_type s) v (s_items s) (s_oneOf s) (s_format s) (s_properties s)
    (s_required s) (s_description s) (s_title s) (s_minimum s) (s_maximum s).
Definition setItems (v : option Schema) (s : Schema) : Schema :=
  mkSchema (s_type s) (s_ref s) v (s_oneOf s) (s_format s) (s_properties s)
    (s_required s) (s_description s) (s_title s) (s_minimum s) (s_maximum s).
Definition setOneOf (v : option (list Schema)) (s : Schema) : Schema :=
  mkSchema (s_type s) (s_ref s) (s_items s) v (s_format s) (s_properties s)
    (s_required s) (s_description s) (s_title s) (s_minimum s) (s_maximum s).
Definition setFormat (v : option LitValue) (s : Schema) : Schema :=
  mkSchema (s_type s) (s_ref s) (s_items s) (s_oneOf s) v (s_properties s)
    (s_required s) (s_description s) (s_title s) (s_minimum s) (s_maximum s).
Definition setProperties (v : option (list (string * Schema))) (s : Schema) : Schema :=
  mkSchema (s_type s) (s_ref s) (s_items s) (s_oneOf s) (s_format s) v
    (s_required s) (s_description s) (s_title s) (s_minimum s) (s_maximum s).
Definition setRequired (v : option (list string)) (s : Schema) : Schema :=
  mkSchema (s_type s) (s_ref s) (s_items s) (s_oneOf s) (s_format s) (s_properties s)
    v (s_description s) (s_title s) (s_minimum s) (s_maximum s).
Definition setDescription (v : option string) (s : Schema) : Schema :=
  mkSchema (s_type s) (s_ref s) (s_items s) (s_oneOf s) (s_format s) (s_properties s)
    (s_required s) v (s_title s) (s_minimum s) (s_maximum s).
Definition setTitle (v : option string) (s : Schema) : Schema :=
  mkSchema (s_type s) (s_ref s) (s_items s) (s_oneOf s) (s_format s) (s_properties s)
    (s_required s) (s_description s) v (s_minimum s) (s_maximum s).
Definition setMinimum (v : option JsNum) (s : Schema) : Schema :=
  mkSchema (s_type s) (s_ref s) (s_items s) (s_oneOf s) (s_format s) (s_properties s)
    (s_required s) (s_description s) (s_title s) v (s_maximum s).
Definition setMaximum (v : option JsNum) (s : Schema) : Schema :=
  mkSchema (s_type s) (s_ref s) (s_items s) (s_oneOf s) (s_format s) (s_properties s)
    (s_required s) (s_description s) (s_title s) (s_minimum s) v.

(** [{ type:t }] *)
Definition typeOnly (t : string) : Schema := setType (Some t) emptySchema.

(* ================================================================== *)
(** * Doc-comment tags (doctrine)                                       *)
(* ================================================================== *)

(** [tag.type]: the parsed type expression of a tag; [tt_name] is read
    only when [tt_type] is "NameExpression". *)
Record TagType : Type := mkTagType {
  tt_type : string;
  tt_name : string
}.

Record Tag : Type := mkTag {
  title : string;
  description : option string;
  tag_type : option TagType
}.

(** [schemaObject.type != null && schemaObject.type != "null"] *)
Definition hasLiveType (s : Schema) : bool :=
  match s_type s with
  | Some t => negb (String.eqb t "null")
  | None => false
  end.

(** [schemaObject[title] = value], for the two titles [applyTag] passes. *)
Definition setValue (title : string) (value : JsNum) (s : Schema) : Schema :=
  if String.eqb title "minimum" then setMinimum (Some value) s
  else if String.eqb title "maximum" then setMaximum (Some value) s
  else s.

Definition applyValueTag (schemaObject : Schema) (title : string) (value : JsNum)
  : Schema :=
  if hasLiveType schemaObject then setValue title value schemaObject
  else
    match s_oneOf schemaObject with
    | Some leaves =>
        setOneOf
          (Some (map (fun leaf =>
                        if hasLiveType leaf then setValue title value leaf else leaf)
                     leaves))
          schemaObject
    | None => schemaObject
    end.

Definition applyTypenameTag (schemaObject : Schema) (name : string) : Schema :=
  if hasLiveType schemaObject then setType (Some name) schemaObject
  else
    match s_oneOf schemaObject with
    | Some leaves =>
        setOneOf
          (Some (map (fun leaf =>
                        if hasLiveType leaf then setType (Some name) leaf else leaf)
                     leaves))
          schemaObject
    | None => schemaObject
    end.

(** [applyTag]: the object is mutated in place, here the mutated object is
    returned.  Reading [tag.type.type] of a "type" tag that has no type
    expression is a [TypeError]. *)
Definition applyTag (schemaObject : Schema) (tag : option Tag) : outcome Schema :=
  match tag with
  | None => Ok schemaObject
  | Some tag =>
      if String.eqb (title tag) "minimum" || String.eqb (title tag) "maximum"
      then Ok (applyValueTag schemaObject (title tag) (parseInt (description tag)))
      else if String.eqb (title tag) "type" then
        match tag_type tag with
        | Some ty =>
            if String.eqb (tt_type ty) "NameExpression"
            then Ok (applyTypenameTag schemaObject (tt_name ty))
            else Ok schemaObject
        | None => Throw (TypeError "Cannot read property 'type' of undefined")
        end
      else Ok schemaObject
  end.

(* ================================================================== *)
(** * Type nodes                                                        *)
(* ================================================================== *)

(** The members of [ts.SyntaxKind] the analyzer names, and all others by
    their numeric value. *)
Inductive SyntaxKind : Type :=
| StringKeyword | NumberKeyword | BooleanKeyword | AnyKeyword | NullKeyword
| UndefinedKeyword | SymbolKeyword | ObjectKeyword
| FunctionType | TypeQuery | ParenthesizedType
| ArrayType | TypeReference | UnionType | LiteralType
| OtherKind (code : N).

(** A type annotation as the compiler hands it over.  [typeDesc.constructor.name]
    is 'TokenObject' for keywords and 'NodeObject' for composite nodes; the
    four composite kinds whose children the analyzer reads have a
    constructor of their own, [NodeObject] stands for every other kind
    (its children are never looked at).  A literal node carries what the
    checker resolves it to: [type.value] and [checker.typeToString(type)]. *)
Inductive TypeNode : Type :=
| TokenObject (kind : SyntaxKind)
| ArrayTypeNode (elementType : TypeNode)
| TypeReferenceNode (typeName : string) (typeArguments : option (list TypeNode))
| UnionTypeNode (types : list TypeNode)
| LiteralTypeNode (value : option LitValue) (text : string)
| NodeObject (kind : SyntaxKind)
| ForeignObject (constructorName : string).

(** How [${o.kind}] is printed in a message.  The compiler prints the
    numeric value of the enumeration; the numbers of the named kinds change
    between compiler versions, so those are printed by name here. *)
Definition showN (n : N) : string := NilEmpty.string_of_uint (N.to_uint n).

Definition showKind (k : SyntaxKind) : string :=
  match k with
  | StringKeyword => "StringKeyword" | NumberKeyword => "NumberKeyword"
  | BooleanKeyword => "BooleanKeyword" | AnyKeyword => "AnyKeyword"
  | NullKeyword => "NullKeyword" | UndefinedKeyword => "UndefinedKeyword"
  | SymbolKeyword => "SymbolKeyword" | ObjectKeyword => "ObjectKeyword"
  | FunctionType => "FunctionType" | TypeQuery => "TypeQuery"
  | ParenthesizedType => "ParenthesizedType" | ArrayType => "ArrayType"
  | TypeReference => "TypeReference" | UnionType => "UnionType"
  | LiteralType => "LiteralType"
  | OtherKind code => showN code
  end.

(* ================================================================== *)
(** * Endpoints and registry entries                                    *)
(* ================================================================== *)

(** A literal decorator argument as [genArgumentList] records it: the text
    of a string literal or identifier, or a number (kept as printed). *)
Inductive Arg : Type :=
| ArgString (s : string)
| ArgNumber (shown : string).

(** A decorator argument spliced into a template string. *)
Definition showArg (a : Arg) : string :=
  match a with
  | ArgString s => s
  | ArgNumber shown => shown
  end.

Record TypedId : Type := mkTypedId {
  id : string;
  p_type : TypeNode
}.

(** [DecoratedFunction]; the field [type] (the verb) is [verb] here. *)
Record DecoratedFunction : Type := mkDecoratedFunction {
  className : string;
  comment : option string;
  decorates : string;
  decoratorArgs : list Arg;
  methodParameters : list TypedId;
  returnType : option TypeNode;
  verb : string
}.

(** [symtab[parent].members[name] = { desc, type, optional }] *)
Record Member : Type := mkMember {
  desc : Schema;
  m_type : TypeNode;
  optional : bool
}.

(** The [type] field of a registry entry: "type", "controller", "router". *)
Inductive EntryType : Type := TypeDecl | ControllerDecl | RouterDecl.

Definition entryTypeEqb (a b : EntryType) : bool :=
  match a, b with
  | TypeDecl, TypeDecl | ControllerDecl, ControllerDecl | RouterDecl, RouterDecl => true
  | _, _ => false
  end.

(** An object stored in [symtab].  The three places that create one give
    it different properties; a property the object does not have is [None]
    ([relevant]: [false]).  The [jsDoc] property of type entries is written
    but never read and is left out. *)
Record Entry : Type := mkEntry {
  e_type : EntryType;
  e_name : option string;
  e_fileName : option string;
  e_comment : option string;
  e_methods : option (list DecoratedFunction);
  e_args : option (list Arg);
  e_members : option (dict Member);
  e_relevant : bool;
  e_def : option Schema
}.

Definition Symtab := dict Entry.

Definition setRelevant (e : Entry) : Entry :=
  mkEntry (e_type e) (e_name e) (e_fileName e) (e_comment e) (e_methods e)
    (e_args e) (e_members e) true (e_def e).
Definition setDef (d : option Schema) (e : Entry) : Entry :=
  mkEntry (e_type e) (e_name e) (e_fileName e) (e_comment e) (e_methods e)
    (e_args e) (e_members e) (e_relevant e) d.
Definition setMethods (m : option (list DecoratedFunction)) (e : Entry) : Entry :=
  mkEntry (e_type e) (e_name e) (e_fileName e) (e_comment e) m
    (e_args e) (e_members e) (e_relevant e) (e_def e).
Definition setArgs (a : option (list Arg)) (e : Entry) : Entry :=
  mkEntry (e_type e) (e_name e) (e_fileName e) (e_comment e) (e_methods e)
    a (e_members e) (e_relevant e) (e_def e).
Definition setMembers (m : option (dict Member)) (e : Entry) : Entry :=
  mkEntry (e_type e) (e_name e) (e_fileName e) (e_comment e) (e_methods e)
    (e_args e) m (e_relevant e) (e_def e).

(** [{ type:"type", members:{}, jsDoc:null }] followed by [.comment = comment] *)
Definition newTypeEntry (comment : option string) : Entry :=
  mkEntry TypeDecl None None comment None None (Some []) false None.

(** [{ type:"controller", name, fileName, comment, methods:[], args:[] }] *)
Definition newClassEntry (t : EntryType) (className fileName : string)
  (comment : option string) : Entry :=
  mkEntry t (Some className) (Some fileName) comment (Some []) (Some []) None false None.

(* ================================================================== *)
(** * Registry operations                                               *)
(* ================================================================== *)

Definition addController (className fileName : string) (comment : option string)
  (symtab : Symtab) : outcome Symtab :=
  match lookup symtab className with
  | Some _ => Throw (Thrown ("multiple references to same class: " ++ className))
  | None => Ok (assign symtab className (newClassEntry ControllerDecl className fileName comment))
  end.

Definition addRouter (className fileName : string) (comment : option string)
  (symtab : Symtab) : Symtab :=
  assign symtab className (newClassEntry RouterDecl className fileName comment).

(** [connectMethods].  [className] is always set when an endpoint is
    recorded, so the test [className != null] is not modelled.
    [controller.methods.push] on an entry that has no [methods] property
    (a "type" entry) is a [TypeError]. *)
Definition connectMethod (endpoint : DecoratedFunction) (symtab : Symtab)
  : outcome Symtab :=
  match lookup symtab (className endpoint) with
  | Some controller =>
      match e_methods controller with
      | Some methods =>
          Ok (update symtab (className endpoint)
                (setMethods (Some (methods ++ [endpoint])%list)))
      | None => Throw (TypeError "Cannot read property 'push' of undefined")
      end
  | None => Ok symtab
  end.

Definition connectMethods (endpoints : list DecoratedFunction) (symtab : Symtab)
  : outcome Symtab :=
  forEach connectMethod endpoints symtab.

(* ================================================================== *)
(** * Schema translator                                                 *)
(* ================================================================== *)

(** [options]: [{ expandRefs, docRoot }], each property optional. *)
Record Options : Type := mkOptions {
  expandRefs : bool;
  docRoot : option string
}.

(** The JSDoc blocks handed to [typeToJSON]: the tags of each block
    ([null] and the empty array are both []). *)
Definition JsDoc := list (list Tag).

(** [tokenObjectToJSON]; [jsDoc] is not used by the body. *)
Definition tokenObjectToJSON (o : SyntaxKind) (jsDoc : JsDoc) : outcome (option Schema) :=
  match o with
  | StringKeyword => Ok (Some (typeOnly "string"))
  | NumberKeyword => Ok (Some (typeOnly "number"))
  | BooleanKeyword => Ok (Some (typeOnly "boolean"))
  | AnyKeyword =>
      Ok (Some (setOneOf (Some [typeOnly "object"; typeOnly "number"; typeOnly "string"])
                  emptySchema))
  | NullKeyword => Ok (Some (typeOnly "null"))
  | UndefinedKeyword => Ok None
  | SymbolKeyword => Ok None
  | ObjectKeyword => Ok (Some (typeOnly "object"))
  | FunctionType => Ok None
  | _ => Throw (Thrown ("unknown type  (" ++ showKind o ++ ") in parameterlist"))
  end.

Definition maptypeDescName (docRoot name : string) : option Schema :=
  if String.eqb name "Object" then Some (typeOnly "object")
  else if String.eqb name "String" then Some (typeOnly "string")
  else if String.eqb name "Number" then Some (typeOnly "number")
  else if String.eqb name "Boolean" then Some (typeOnly "boolean")
  else if String.eqb name "Function" then None
  else Some (setRef (Some (docRoot ++ "/" ++ name)) emptySchema).

(** [literalToJSON], on what the checker resolved the literal to. *)
Definition literalToJSON (value : option LitValue) (text : string) : outcome (option Schema) :=
  match value with
  | Some v =>
      Ok (Some (setOneOf (Some [setFormat (Some v) emptySchema])
                  (typeOnly (typeofLit v))))
  | None => Throw (Thrown ("unknown literal type (" ++ text ++ ")"))
  end.

(** The two nested loops of [typeToJSON] that apply every tag of every
    block to [res]. *)
Definition applyTags (jsDoc : JsDoc) (res : Schema) : outcome Schema :=
  forEach (fun tags r => forEach (fun tag r' => applyTag r' (Some tag)) tags r) jsDoc res.

Definition undefinedArgument : exn :=
  TypeError "Cannot read property 'constructor' of undefined".

(** The arguments the loop over [args] runs through. *)
Definition argList (args : option (list TypeNode)) : list TypeNode :=
  match args with Some l => l | None => [] end.

Section Translator.

(** [checker.getTypeFromTypeNode(typeDesc).symbol]: the documentation
    comment of the symbol of the node's type, [None] when the type has
    no symbol. *)
Variable symbolDoc : TypeNode -> option string.

(** [typeToJSON].  With [expandRefs] the result IS the object
    [symtab[name].def], and the tags and the description are written into
    that shared object: the registry is threaded through, and the third
    component of the intermediate result names the entry whose [def] the
    result aliases. *)
Fixpoint typeToJSON (typeDesc : TypeNode) (jsDoc : JsDoc) (options : option Options)
  (symtab : Symtab) {struct typeDesc} : outcome (option Schema * Symtab) :=
  let docRoot :=
    match options with
    | Some (mkOptions _ (Some r)) => r
    | _ => "#/definitions"
    end in
  let array (arg : TypeNode) :=
    '(items, symtab1) <- typeToJSON arg jsDoc options symtab ;;
    Ok (Some (setItems items (typeOnly "array")), symtab1, @None string) in
  '(res, symtab1, shared) <-
    match typeDesc with
    | ArrayTypeNode elementType => array elementType
    | TypeReferenceNode name typeArguments =>
        if String.eqb name "Array" then
          match typeArguments with
          | Some (arg :: _) => array arg
          | Some [] => Throw undefinedArgument
          | None => Throw (TypeError "Cannot read property '0' of undefined")
          end
        else
          match maptypeDescName docRoot name with
          | Some res =>
              match s_ref res, options with
              | Some _, Some (mkOptions true _) =>
                  match lookup symtab name with
                  | None => Throw (Thrown ("undefined type " ++ name))
                  | Some entry => Ok (e_def entry, symtab, Some name)
                  end
              | _, _ => Ok (Some res, symtab, None)
              end
          | None => Ok (None, symtab, None)
          end
    | UnionTypeNode types =>
        (* unionToJSON(typeDesc,jsDoc): no options reach the members *)
        '(oneOf, symtab1) <-
          (fix unionToJSON (l : list TypeNode) (symtab : Symtab)
             : outcome (list Schema * Symtab) :=
             match l with
             | [] => Ok ([], symtab)
             | t :: r =>
                 '(unionElement, symtab1) <- typeToJSON t [] None symtab ;;
                 '(rest, symtab2) <- unionToJSON r symtab1 ;;
                 Ok (match unionElement with
                     | Some e => e :: rest
                     | None => rest
                     end, symtab2)
             end) types symtab ;;
        Ok (Some (setOneOf (Some oneOf) emptySchema), symtab1, None)
    | LiteralTypeNode value text =>
        res <- literalToJSON value text ;; Ok (res, symtab, None)
    | NodeObject FunctionType => Ok (None, symtab, None)
    | NodeObject TypeQuery => Ok (None, symtab, None)
    | NodeObject ParenthesizedType => Ok (None, symtab, None)
    | NodeObject kind =>
        Throw (Thrown ("unknown type (" ++ showKind kind ++ ") in parameterlist"))
    | TokenObject kind =>
        res <- tokenObjectToJSON kind jsDoc ;; Ok (res, symtab, None)
    | ForeignObject constructorName =>
        Throw (Thrown ("unknown type (" ++ constructorName ++ ")"))
    end ;;
  match res with
  | Some res =>
      res1 <- applyTags jsDoc res ;;
      let res2 :=
        match symbolDoc typeDesc with
        | Some doc => setDescription (Some doc) res1
        | None => res1
        end in
      Ok (Some res2,
          match shared with
          | Some name => update symtab1 name (setDef (Some res2))
          | None => symtab1
          end)
  | None => Ok (None, symtab1)
  end.

(* ================================================================ *)
(** * Relevance propagator                                          *)
(* ================================================================ *)

(** [markAsRelevant].  The recursion follows the registry, not the
    node, and has no visited set: [fuel] bounds the depth of the calls.
    The arguments [jsDoc] and [options] are only passed along by the
    source and are left out.  [markUnionAsRelevant] is the loop of the
    union case.  Marking writes nothing but [relevant], so the member list
    read when the [for ... in] starts is the one every iteration sees. *)
Fixpoint markAsRelevant (fuel : nat) (typeDesc : TypeNode) (symtab : Symtab)
  {struct fuel} : outcome Symtab :=
  match fuel with
  | O => OutOfFuel
  | S fuel' =>
      match typeDesc with
      | ArrayTypeNode elementType => markAsRelevant fuel' elementType symtab
      | TypeReferenceNode typeName args =>
          match lookup symtab typeName with
          | None => Throw (Thrown ("undefined type " ++ typeName))
          | Some _ =>
              let symtab1 := update symtab typeName setRelevant in
              symtab2 <-
                forEach (markAsRelevant fuel') (argList args) symtab1 ;;
              match lookup symtab2 typeName with
              | Some entry =>
                  forEach (fun member => markAsRelevant fuel' (m_type (snd member)))
                    (match e_members entry with Some m => m | None => [] end)
                    symtab2
              | None => Throw (TypeError "Cannot read property 'members' of undefined")
              end
          end
      | UnionTypeNode types => forEach (markAsRelevant fuel') types symtab
      | _ => Ok symtab
      end
  end.

(** What [parameterListToJSON] returns. *)
Record ParameterList : Type := mkParameterList {
  pl_className : string;
  pl_method : string;
  pl_parameterNames : list string;
  pl_schema : Schema
}.

(** The body of the first loop of [parameterListToJSON]: translate the
    parameter and, when it has a schema, record it and mark its type. *)
Definition parameterToJSON (fuel : nat) (options : option Options)
  (parameter : TypedId) (acc : dict Schema * Symtab)
  : outcome (dict Schema * Symtab) :=
  let '(props, symtab) := acc in
  '(jsonValue, symtab1) <- typeToJSON (p_type parameter) [] options symtab ;;
  match jsonValue with
  | Some jsonValue =>
      symtab2 <- markAsRelevant fuel (p_type parameter) symtab1 ;;
      Ok (assign props (id parameter) jsonValue, symtab2)
  | None => Ok (props, symtab1)
  end.

(** [parameterListToJSON]: the parameters, then the return type is
    marked ([markAsRelevant(undefined)] reads [undefined.constructor]). *)
Definition parameterListToJSON (fuel : nat) (method : DecoratedFunction)
  (options : option Options) (symtab : Symtab)
  : outcome (ParameterList * Symtab) :=
  '(props, symtab1) <-
    forEach (parameterToJSON fuel options) (methodParameters method) ([], symtab) ;;
  symtab2 <-
    match returnType method with
    | Some returnType => markAsRelevant fuel returnType symtab1
    | None => Throw undefinedArgument
    end ;;
  let parameterNames := map id (methodParameters method) in
  Ok (mkParameterList (className method) (decorates method) parameterNames
        (setProperties (Some props)
           (setType (Some "object")
              (setDescription (Some ("Parameter list for " ++ decorates method))
                 (setTitle (Some (decorates method ++ " plist")) emptySchema)))),
      symtab2).

End Translator.

(* ================================================================== *)
(** * Registry views                                                    *)
(* ================================================================== *)

(** The definition [symtabToSchemaDefinitions] builds for one entry. *)
Definition definitionOf (entry : Entry) : Schema :=
  let members := match e_members entry with Some m => m | None => [] end in
  let properties := map (fun '(mkey, m) => (mkey, desc m)) members in
  let required := map fst (filter (fun '(_, m) => negb (optional m)) members) in
  let d0 := setProperties (Some properties) (typeOnly "object") in
  let d1 := match required with [] => d0 | _ => setRequired (Some required) d0 end in
  match e_comment entry with
  | Some c => setDescription (Some c) d1
  | None => d1
  end.

(** [symtab[ikey].type == "type" && symtab[ikey].relevant] *)
Definition isRelevantType (entry : Entry) : bool :=
  entryTypeEqb (e_type entry) TypeDecl && e_relevant entry.

(** [symtabToSchemaDefinitions]: the definitions map, and the registry
    with [def] stored in every entry that got a definition. *)
Definition symtabToSchemaDefinitions (symtab : Symtab) : dict Schema * Symtab :=
  (map (fun '(ikey, entry) => (ikey, definitionOf entry))
     (filter (fun '(_, entry) => isRelevantType entry) symtab),
   map (fun '(ikey, entry) =>
          (ikey, if isRelevantType entry
                 then setDef (Some (definitionOf entry)) entry else entry))
     symtab).

(** [Controller] and [Router] have the same shape.  [path] is the class
    name or the first decorator argument, whatever its type. *)
Record Controller : Type := mkController {
  c_path : Arg;
  c_className : string;
  c_fileName : option string;
  c_comment : option string;
  c_methods : option (list DecoratedFunction);
  c_args : option (list Arg)
}.

Definition Router := Controller.

(** The loop body shared by [symtabToControllerDefinitions] and
    [symtabToRouterDefinitions].  The entries of these two types are made
    by [addController] and [addRouter] only, which store the key as [name];
    an entry without [name] is taken as malformed. *)
Definition classDefinitions (t : EntryType) (symtab : Symtab) : outcome (list Controller) :=
  forEach (fun '(ikey, entry) res =>
             if entryTypeEqb (e_type entry) t then
               match e_name entry with
               | Some className =>
                   match lookup symtab className with
                   | Some named =>
                       let path :=
                         match e_args entry with
                         | Some (a :: _) => a
                         | _ => ArgString className
                         end in
                       Ok (res ++ [mkController path className (e_fileName named)
                                     (e_comment named) (e_methods entry) (e_args entry)])%list
                   | None => Throw (TypeError "Cannot read property 'comment' of undefined")
                   end
               | None => Throw (TypeError "Cannot read property 'comment' of undefined")
               end
             else Ok res)
    symtab [].

Definition symtabToControllerDefinitions := classDefinitions ControllerDecl.
Definition symtabToRouterDefinitions := classDefinitions RouterDecl.

(* ================================================================== *)
(** * Validator module                                                  *)
(* ================================================================== *)

(** One [exports["Class.method"] = { schema, argsToSchema, validate }]
    block of [__check.js]: its key, the schema both [schema] and
    [validate] are built from, and the names [argsToSchema] maps the
    positional arguments to. *)
Record MethodEntry : Type := mkMethodEntry {
  me_key : string;
  me_schema : Schema;
  me_parameterNames : list string
}.

Definition genMethodEntry (className methodName : string)
  (parameterNames : list string) (schema : Schema) : MethodEntry :=
  mkMethodEntry (className ++ "." ++ methodName) schema parameterNames.

(** [argsToSchema] as generated by [genArgsToSchema]: [o[name_i] = a[i]]. *)
Fixpoint argsToSchema {A : Type} (parameterNames : list string) (a : list A)
  : dict (option A) :=
  match parameterNames with
  | [] => []
  | n :: r => assign (argsToSchema r (tl a)) n (hd_error a)
  end.

(* ================================================================== *)
(** * OpenAPI document                                                  *)
(* ================================================================== *)

Definition nl : string := String (ascii_of_nat 10) "".

Inductive Response : Type :=
| Response200 (schema : Schema)     (* responses["200"], with content *)
| Response204.                      (* responses["204"], description only *)

Record SwaggerParameter : Type := mkSwaggerParameter {
  par_name : string;
  par_in : string;
  par_schema : option Schema;
  par_required : bool
}.

(** The operation object stored under the verb. *)
Record Operation : Type := mkOperation {
  op_tags : list string;
  op_operationId : string;
  op_parameters : list SwaggerParameter;
  op_responses : Response;
  op_description : option string
}.

Record SwaggerDoc : Type := mkSwaggerDoc {
  openapi : string;
  info_version : string;
  info_title : string;
  info_description : option string;
  paths : dict (dict Operation);
  components_schemas : dict Schema
}.

Definition nonEmpty (c : option string) : option string :=
  match c with
  | Some "" => None
  | other => other
  end.

(** The text [genSwaggerPreamble] assembles for [info.description]. *)
Definition preambleComments (routers : list Router) (controllers : list Controller)
  : string :=
  fold_left
    (fun comments router =>
       let comments :=
         match nonEmpty (c_comment router) with
         | Some c => comments ++ c ++ nl ++ nl
         | None => comments
         end in
       fold_left
         (fun comments controller =>
            match nonEmpty (c_comment controller) with
            | Some c =>
                (if String.eqb comments "" then comments else comments ++ nl ++ nl)
                  ++ showArg (c_path controller) ++ nl ++ nl ++ c
            | None => comments
            end)
         controllers comments)
    routers "".

(** [p.charAt(...)] on a path that is a number is a [TypeError]. *)
Definition strippedPath (p : Arg) : outcome string :=
  match p with
  | ArgString s => Ok (stripPath s)
  | ArgNumber _ => Throw (TypeError "charAt is not a function")
  end.

(** [tsany.getTextOfNode(returnType.typeName)]: the name of a type
    reference, the empty text for a node without [typeName]. *)
Definition typeNameText (t : TypeNode) : string :=
  match t with
  | TypeReferenceNode typeName _ => typeName
  | _ => ""
  end.

Definition swaggerOptions : option Options :=
  Some (mkOptions true (Some "#/components/schemas")).

Section Emitters.

Variable symbolDoc : TypeNode -> option string.

(** The part of [genSwaggerPaths] that computes [returnTypedef]. *)
Definition returnTypedefOf (returnType : option TypeNode) (symtab : Symtab)
  : outcome (option Schema * Symtab) :=
  match returnType with
  | Some returnType =>
      '(returnTypedef, symtab1) <- typeToJSON symbolDoc returnType [] None symtab ;;
      if String.eqb (typeNameText returnType) "Promise" then
        match returnType with
        | TypeReferenceNode _ (Some (promiseArg :: _)) =>
            typeToJSON symbolDoc promiseArg [] swaggerOptions symtab1
        | TypeReferenceNode _ (Some []) => Throw undefinedArgument
        | _ => Throw (TypeError "Cannot read property '0' of undefined")
        end
      else Ok (returnTypedef, symtab1)
  | None => Ok (None, symtab)
  end.

(** The parameters one method parameter contributes. *)
Definition swaggerParameters (inputForm : string) (parameter : TypedId)
  (symtab : Symtab) : outcome (list SwaggerParameter * Symtab) :=
  '(parameterTypedef, symtab1) <-
    typeToJSON symbolDoc (p_type parameter) [] swaggerOptions symtab ;;
  let whole := [mkSwaggerParameter (id parameter) inputForm parameterTypedef true] in
  Ok (match parameterTypedef with
      | Some def =>
          match s_type def with
          | Some t =>
              if String.eqb t "object" then
                map (fun '(pname, schema) =>
                       mkSwaggerParameter pname inputForm (Some schema)
                         (match s_required def with
                          | Some required => existsb (String.eqb pname) required
                          | None => false
                          end))
                  (match s_properties def with Some p => p | None => [] end)
              else whole
          | None => whole
          end
      | None => whole
      end, symtab1).

(** The body of the inner loop of [genSwaggerPaths]: one method. *)
Definition swaggerMethod (prefix p1 : string) (method : DecoratedFunction)
  (acc : dict (dict Operation) * Symtab) : outcome (dict (dict Operation) * Symtab) :=
  let '(paths, symtab) := acc in
  let p2 := decorates method in
  let methodType := verb method in
  '(returnTypedef, symtab1) <- returnTypedefOf (returnType method) symtab ;;
  let responses :=
    match returnTypedef with
    | Some schema => Response200 schema
    | None => Response204
    end in
  let inputForm :=
    if String.eqb methodType "post" || String.eqb methodType "all"
       || String.eqb methodType "delete"
    then "body" else "query" in
  '(parameters, symtab2) <-
    forEach (fun parameter '(parameters, symtab) =>
               '(ps, symtab1) <- swaggerParameters inputForm parameter symtab ;;
               Ok ((parameters ++ ps)%list, symtab1))
      (methodParameters method) ([], symtab1) ;;
  let pathId := "/" ++ prefix ++ "/" ++ p1 ++ "/" ++ p2 in
  Ok (assign paths pathId
        [(methodType,
          mkOperation [p1] p2 parameters responses (nonEmpty (comment method)))],
      symtab2).

(** [genSwaggerPaths]: the value assigned to [def.paths]. *)
Definition genSwaggerPaths (prefix : string) (controllers : list Controller)
  (symtab : Symtab) : outcome (dict (dict Operation) * Symtab) :=
  forEach (fun controller acc =>
             p1 <- strippedPath (c_path controller) ;;
             match c_methods controller with
             | Some methods => forEach (swaggerMethod prefix p1) methods acc
             | None => Throw (TypeError "Cannot read property 'length' of undefined")
             end)
    controllers ([], symtab).

(** [genSwaggerRoutes]: every router assigns [def.paths] anew, so the
    paths of the last router remain. *)
Definition genSwaggerRoutes (routers : list Router) (controllers : list Controller)
  (symtab : Symtab) : outcome (dict (dict Operation) * Symtab) :=
  match routers with
  | [] => Throw (Thrown "No Router Definitions Found")
  | _ =>
      forEach (fun router '(_, symtab) =>
                 prefix <- strippedPath (c_path router) ;;
                 genSwaggerPaths prefix controllers symtab)
        routers ([], symtab)
  end.

End Emitters.

(* ================================================================== *)
(** * Route module                                                      *)
(* ================================================================== *)

(** One [apex.getRouter('C').verb('/path', async(req,res,next) => ...)]
    block: the handler constructs [CModule.default] and awaits
    [controller.method(req.query)] or [controller.method(req.body)]. *)
Record Handler : Type := mkHandler {
  h_className : string;
  h_rfunc : string;
  h_path : string;
  h_endpointName : string;
  h_input : string
}.

(** [__routes.js], block by block: the [require] of each controller's
    module (class name and the file name before [path] rewrites it), the
    [apex.addRouter] calls, the handlers, the [apex.app.use] mounts.  The
    fixed lines (express, swagger UI, the [/docs] mount) are not listed. *)
Record RoutesModule : Type := mkRoutesModule {
  rm_requires : list (string * option string);
  rm_addRouter : list string;
  rm_handlers : list Handler;
  rm_mounts : list (string * string)
}.

Definition routeHandler (endpoint : DecoratedFunction) : Handler :=
  let rfunc := verb endpoint in
  let endpointName := decorates endpoint in
  let path :=
    match decoratorArgs endpoint with
    | a :: _ => showArg a
    | [] => endpointName
    end in
  mkHandler (className endpoint) rfunc ("/" ++ path) endpointName
    (if String.eqb rfunc "get" || String.eqb rfunc "put" then "query" else "body").

Definition genRoutes (endpoints : list DecoratedFunction) (routers : list Router)
  (controllers : list Controller) : outcome RoutesModule :=
  mounts <-
    forEach (fun controller mounts =>
               path <- strippedPath (c_path controller) ;;
               Ok (app mounts [("/" ++ path, c_className controller)]))
      controllers [] ;;
  Ok (mkRoutesModule
        (map (fun c => (c_className c, c_fileName c)) controllers)
        (map c_className controllers)
        (map routeHandler endpoints)
        mounts).

(* ================================================================== *)
(** * The three artifacts                                               *)
(* ================================================================== *)

(** [__check.js]: the [definitions] object and one entry per endpoint. *)
Record CheckModule : Type := mkCheckModule {
  cm_definitions : dict Schema;
  cm_entries : list MethodEntry
}.

(** What a run has written and printed when it ends.  [checkTags] are the
    JSDoc blocks the traversal writes to the check file while it parses
    interface properties. *)
Record Files : Type := mkFiles {
  checkTags : list string;
  checkFile : option CheckModule;
  swaggerFile : option SwaggerDoc;
  routesFile : option RoutesModule;
  console : list string
}.

(** A run: the files as they are when it ends, and how it ended. *)
Definition Run := (Files * outcome unit)%type.

Definition showExn (e : exn) : string :=
  match e with
  | Thrown msg => msg
  | TypeError msg => "TypeError: " ++ msg
  end.

Section Sources.

Variable symbolDoc : TypeNode -> option string.

(** The body of the first loop of [genSources]. *)
Definition methodEntry (fuel : nat) (item : DecoratedFunction)
  (acc : list MethodEntry * Symtab) : outcome (list MethodEntry * Symtab) :=
  let '(entries, symtab) := acc in
  '(x, symtab1) <- parameterListToJSON symbolDoc fuel item None symtab ;;
  let schema := setRequired (Some (pl_parameterNames x)) (pl_schema x) in
  Ok ((entries ++ [genMethodEntry (pl_className x) (pl_method x)
                     (pl_parameterNames x) schema])%list,
      symtab1).

(** The first loop of [genSources]: [parameterListToJSON] for every
    endpoint, in order; this is the relevance-marking pass. *)
Definition methodEntries (fuel : nat) (items : list DecoratedFunction)
  (symtab : Symtab) : outcome (list MethodEntry * Symtab) :=
  forEach (methodEntry fuel) items ([], symtab).

(** The definitions object is shared with the registry: each value is
    the very object stored as [def], so it is read back from the
    registry when the document is serialized. *)
Definition currentDefinitions (definitions : dict Schema) (symtab : Symtab)
  : dict Schema :=
  map (fun '(ikey, d) =>
         (ikey, match lookup symtab ikey with
                | Some entry => match e_def entry with Some d' => d' | None => d end
                | None => d
                end))
    definitions.

(** [genSources].  The check file is written before the document is
    built, the document before the routes. *)
Definition genSources (fuel : nat) (items : list DecoratedFunction)
  (packageName : string) (symtab : Symtab) (files : Files) : Run :=
  match
    (controllers <- symtabToControllerDefinitions symtab ;;
     routers <- symtabToRouterDefinitions symtab ;;
     '(entries, symtab1) <- methodEntries fuel items symtab ;;
     Ok (controllers, routers, entries, symtab1))
  with
  | Ok (controllers, routers, entries, symtab1) =>
      let '(definitions, symtab2) := symtabToSchemaDefinitions symtab1 in
      let files1 :=
        mkFiles (checkTags files) (Some (mkCheckModule definitions entries))
          (swaggerFile files) (routesFile files) (console files) in
      match genSwaggerRoutes symbolDoc routers controllers symtab2 with
      | Ok (paths, symtab3) =>
          let comments := preambleComments routers controllers in
          let doc :=
            mkSwaggerDoc "3.0.0" "1.0.0" packageName
              (if String.eqb comments "" then None else Some comments)
              paths (currentDefinitions definitions symtab3) in
          let files2 :=
            mkFiles (checkTags files1) (checkFile files1) (Some doc)
              (routesFile files1) (console files1) in
          match genRoutes items routers controllers with
          | Ok routes =>
              (mkFiles (checkTags files2) (checkFile files2) (swaggerFile files2)
                 (Some routes) (console files2), Ok tt)
          | Throw e => (files2, Throw e)
          | OutOfFuel => (files2, OutOfFuel)
          end
      | Throw e => (files1, Throw e)
      | OutOfFuel => (files1, OutOfFuel)
      end
  | Throw e => (files, Throw e)
  | OutOfFuel => (files, OutOfFuel)
  end.

End Sources.

(* ================================================================== *)
(** * Traversal of the declarations (pass 1)                            *)
(* ================================================================== *)

(** An argument of a decorator call, by the kind of its expression.  A
    string literal carries its source text, quotes included; a numeric
    literal the number [parseFloat] reads, as printed. *)
Inductive DecoratorArg : Type :=
| StringLiteral (text : string)
| NumericLiteral (shown : string)
| Identifier (text : string)
| FunctionExpression
| OtherExpression (kind : N).

(** A decorator: the name of the symbol of its first token, and, when
    its expression is a call, the text of the called identifier and the
    arguments. *)
Record Decorator : Type := mkDecorator {
  dname : string;
  callExpression : option (string * list DecoratorArg)
}.

(** What the compiler reports for a property signature of an interface:
    [name.text], the type annotation, the JSDoc tags of its symbol, the
    question token, and what [doctrine.parse] answers on the comment block
    assembled from the tags (an error text when it throws). *)
Record PropertySignature : Type := mkPropertySignature {
  ps_name : option string;
  ps_type : option TypeNode;
  ps_tags : list (string * string);
  ps_questionToken : bool;
  ps_parsed : string + list Tag
}.

(** The declarations the traversal distinguishes.  [members] of a class
    are its child nodes; an interface lists its property signatures (its
    other members are skipped by [visit2]). *)
Inductive Node : Type :=
| ClassDeclaration (decorators : option (list Decorator)) (name : string)
    (fileName : string) (comment : string) (members : list Node)
| MethodDeclaration (decorators : option (list Decorator)) (name : string)
    (comment : string) (parameters : list TypedId) (type : option TypeNode)
| FunctionDeclaration (decorators : option (list Decorator)) (name : option string)
    (comment : string) (type : option TypeNode)
| InterfaceDeclaration (name : string) (comment : string)
    (properties : list PropertySignature)
| OtherDeclaration (decorators : option (list Decorator)) (kind : N).

Record State : Type := mkState {
  symtab : Symtab;
  endpoints : list DecoratedFunction;
  st_console : list string;
  st_checkTags : list string
}.

Definition withSymtab (t : Symtab) (s : State) : State :=
  mkState t (endpoints s) (st_console s) (st_checkTags s).
Definition log (line : string) (s : State) : State :=
  mkState (symtab s) (endpoints s) (st_console s ++ [line])%list (st_checkTags s).
Definition pushEndpoint (item : DecoratedFunction) (s : State) : State :=
  mkState (symtab s) (endpoints s ++ [item])%list (st_console s) (st_checkTags s).
Definition writeTags (block : string) (s : State) : State :=
  mkState (symtab s) (endpoints s) (st_console s) (st_checkTags s ++ [block])%list.

(** Statements that change the state and may throw: the state reached
    is kept when an exception leaves, as it is in the mutated globals. *)
Definition Effect := (State * option exn)%type.

Definition andThen (r : Effect) (k : State -> Effect) : Effect :=
  match r with
  | (s, None) => k s
  | (s, Some e) => (s, Some e)
  end.

Fixpoint each {A : Type} (body : A -> State -> Effect) (l : list A) (s : State)
  : Effect :=
  match l with
  | [] => (s, None)
  | a :: r => andThen (body a s) (each body r)
  end.

(** [try { ... } catch(e) { console.log(e); }] *)
Definition tryLog (r : Effect) : Effect :=
  match r with
  | (s, Some e) => (log (showExn e) s, None)
  | done => done
  end.

(** [text.replace(/^["']|["']$/g,'')] *)
Definition doubleQuote : ascii := ascii_of_nat 34.

Definition isQuote (a : ascii) : bool :=
  Ascii.eqb a doubleQuote || Ascii.eqb a "'"%char.

Definition stripQuotes (text : string) : string :=
  let t1 :=
    match text with
    | String a r => if isQuote a then r else text
    | EmptyString => text
    end in
  if lastCharIs doubleQuote t1 || lastCharIs "'"%char t1 then dropLast t1 else t1.

(** [genArgumentList]: the list, or the exception that ends it; a
    function expression is skipped with a line on the console. *)
Definition genArgumentList (arguments : list DecoratorArg) (s : State)
  : State * (list Arg + exn) :=
  fold_left
    (fun (acc : State * (list Arg + exn)) arg =>
       match acc with
       | (s, inl argList) =>
           match arg with
           | StringLiteral text => (s, inl (argList ++ [ArgString (stripQuotes text)])%list)
           | NumericLiteral shown => (s, inl (argList ++ [ArgNumber shown])%list)
           | Identifier text => (s, inl (argList ++ [ArgString text])%list)
           | FunctionExpression =>
               (log "   ignoring function in decorator argument list" s, inl argList)
           | OtherExpression kind =>
               (s, inr (Thrown ("unknown type (" ++ showN kind
                                  ++ ") in decorator argument list")))
           end
       | stopped => stopped
       end)
    arguments (s, inl []).

Definition isVerb (dname : string) : bool :=
  String.eqb dname "get" || String.eqb dname "post" || String.eqb dname "put"
  || String.eqb dname "del" || String.eqb dname "all".

(** The tail of [visitDecorator] for a decorator that is a call and whose
    parent asked for a run-time check: build the endpoint and push it.
    [owner] is [id.parent.parent.parent.parent.name.text], the name of the
    node that contains the decorated one. *)
Definition recordEndpoint (owner : option string) (idText : string)
  (arguments : list DecoratorArg) (parentName : string) (comment : option string)
  (methodParameters : list TypedId) (returnType : option TypeNode) (s : State)
  : Effect :=
  let type := if String.eqb idText "del" then "delete" else idText in
  match owner with
  | Some className =>
      match genArgumentList arguments s with
      | (s1, inl decoratorArgs) =>
          (pushEndpoint
             (mkDecoratedFunction className comment parentName decoratorArgs
                methodParameters returnType type) s1, None)
      | (s1, inr e) => (s1, Some e)
      end
  | None => (s, Some (TypeError "Cannot read property 'text' of undefined"))
  end.

(** The comment block [visit2] assembles from the tags of a property. *)
Definition tagSrc (tags : list (string * string)) : string :=
  join nl
    (app ["/**"; " *"]
       (app (map (fun '(name, text) =>
                    if String.eqb name "integer" then " * @type {integer}"
                    else " * @" ++ name ++ " " ++ text) tags)
            [" */"])).

(** A call of a function that may throw, from a statement: the state is
    the one before the call when it throws.  (The functions called this
    way do not recurse on fuel; the last case cannot occur.) *)
Definition attempt {A : Type} (o : outcome A) (s : State) (k : A -> Effect) : Effect :=
  match o with
  | Ok a => k a
  | Throw e => (s, Some e)
  | OutOfFuel => (s, None)
  end.

Section Traversal.

Variable symbolDoc : TypeNode -> option string.

(** [visit2] on a property signature of the interface [parentName]. *)
Definition visit2 (parentName : string) (sig : PropertySignature) (s : State)
  : Effect :=
  match ps_name sig, ps_type sig with
  | Some propertyName, Some type =>
      if String.eqb propertyName "" then (s, None)
      else
        andThen
          (match ps_tags sig with
           | [] => (s, None)
           | tags =>
               let s1 := writeTags (tagSrc tags) s in
               match ps_parsed sig with
               | inl e => (s1, Some (Thrown ("invalid JSDoc: " ++ e)))
               | inr _ => (s1, None)
               end
           end)
          (fun s1 =>
             let jsDoc : JsDoc :=
               match ps_tags sig, ps_parsed sig with
               | _ :: _, inr tags => [tags]
               | _, _ => []
               end in
             attempt
               (typeToJSON symbolDoc type jsDoc
                  (Some (mkOptions false (Some "#/components/schemas"))) (symtab s1))
               s1
               (fun '(desc, symtab1) =>
                  match desc with
                  | Some desc =>
                      match lookup symtab1 parentName with
                      | Some entry =>
                          match e_members entry with
                          | Some members =>
                              (withSymtab
                                 (update symtab1 parentName
                                    (setMembers
                                       (Some (assign members propertyName
                                                (mkMember desc type
                                                   (ps_questionToken sig))))))
                                 s1, None)
                          | None =>
                              (withSymtab symtab1 s1,
                               Some (TypeError "Cannot set property of undefined"))
                          end
                      | None =>
                          (withSymtab symtab1 s1,
                           Some (TypeError "Cannot read property 'members' of undefined"))
                      end
                  | None => (withSymtab symtab1 s1, None)
                  end))
  | _, _ => (s, None)
  end.

(** [visitDecorator] on a decorator of a class: the members are visited
    first, then the class is registered, then the decorator arguments
    are stored in the entry. *)
Definition visitClassDecorator (visitMembers : State -> Effect)
  (className fileName comment : string) (d : Decorator) (s : State) : Effect :=
  andThen (visitMembers s) (fun s1 =>
  andThen
    (if String.eqb (dname d) "controller" then
       attempt (addController className fileName (Some comment) (symtab s1)) s1
         (fun t => (withSymtab t s1, None))
     else if String.eqb (dname d) "router" then
       (withSymtab (addRouter className fileName (Some comment) (symtab s1)) s1, None)
     else (s1, None))
    (fun s2 =>
       let doDecoratedClass :=
         String.eqb (dname d) "controller" || String.eqb (dname d) "router" in
       match callExpression d with
       | Some (_, arguments) =>
           if doDecoratedClass then
             match lookup (symtab s2) className with
             | Some _ =>
                 match genArgumentList arguments s2 with
                 | (s3, inl args) =>
                     (withSymtab (update (symtab s3) className (setArgs (Some args))) s3,
                      None)
                 | (s3, inr e) => (s3, Some e)
                 end
             | None => (s2, Some (TypeError "Cannot set property 'args' of undefined"))
             end
           else (s2, None)
       | None => (s2, None)
       end)).

(** [visitDecorator] on a decorator of a method or of a function. *)
Definition visitMethodDecorator (owner : option string) (doRuntimeCheck : bool)
  (parentName : string) (comment : option string) (methodParameters : list TypedId)
  (returnType : option TypeNode) (d : Decorator) (s : State) : Effect :=
  match callExpression d with
  | Some (idText, arguments) =>
      if doRuntimeCheck then
        recordEndpoint owner idText arguments parentName comment methodParameters
          returnType s
      else (s, None)
  | None => (s, None)
  end.

(** [visit].  [owner] is the name of the parent node when it has one,
    [exported] what [isNodeExported] answers: true for the children of a
    source file, false for the members of a class.  An exception inside
    the decorators of a node is caught and printed; one raised while an
    undecorated declaration is processed is not. *)
Fixpoint visit (owner : option string) (exported : bool) (node : Node) (s : State)
  {struct node} : Effect :=
  match node with
  | ClassDeclaration decorators name fileName comment members =>
      let visitMembers := each (visit (Some name) false) members in
      match decorators with
      | Some ds =>
          tryLog (each (visitClassDecorator visitMembers name fileName comment) ds s)
      | None =>
          if exported then
            andThen (visitMembers s) (fun s1 =>
              (withSymtab (assign (symtab s1) name (newTypeEntry (Some comment))) s1,
               None))
          else (s, None)
      end
  | MethodDeclaration decorators name comment parameters type =>
      match decorators with
      | Some ds =>
          tryLog
            (each (fun d =>
                     if isVerb (dname d)
                     then visitMethodDecorator owner true name (Some comment)
                            parameters type d
                     else visitMethodDecorator owner false "unknown" None [] None d)
               ds s)
      | None => (s, None)
      end
  | FunctionDeclaration decorators name comment type =>
      match decorators with
      | Some ds =>
          tryLog
            (each (visitMethodDecorator owner true
                     (match name with Some n => n | None => "unknown" end)
                     (match name with Some _ => Some comment | None => None end)
                     [] type)
               ds s)
      | None => (s, None)
      end
  | InterfaceDeclaration name comment properties =>
      if exported then
        each (visit2 name) properties
          (withSymtab (assign (symtab s) name (newTypeEntry (Some comment))) s)
      else (s, None)
  | OtherDeclaration decorators kind =>
      match decorators with
      | Some ds =>
          tryLog
            (each (fun _ s' =>
                     (s', Some (Thrown ("unknown decorated type (" ++ showN kind ++ ")"))))
               ds s)
      | None => (s, None)
      end
  end.

(** A source file: its name and its top-level declarations. *)
Definition SourceFile := (string * list Node)%type.

Definition visitSourceFile (sourceFile : SourceFile) (s : State) : Effect :=
  each (visit None true) (snd sourceFile)
    (log ("visiting file:  " ++ fst sourceFile) s).

(** [generate], started on an empty [symtab]. *)
Definition generate (fuel : nat) (program : list SourceFile) (packageName : string)
  : Run :=
  match each visitSourceFile program (mkState [] [] [] []) with
  | (s, None) =>
      let files := mkFiles (st_checkTags s) None None None (st_console s) in
      match connectMethods (endpoints s) (symtab s) with
      | Ok symtab1 => genSources symbolDoc fuel (endpoints s) packageName symtab1 files
      | Throw e => (files, Throw e)
      | OutOfFuel => (files, OutOfFuel)
      end
  | (s, Some e) =>
      (mkFiles (st_checkTags s) None None None (st_console s), Throw e)
  end.

End Traversal.

(* ================================================================== *)
(** * Notions used to state the properties                             *)
(* ================================================================== *)

(** [mentions t n]: the named reference [n] occurs in the type node [t]
    (under arrays, unions and type arguments). *)
Inductive mentions : TypeNode -> string -> Prop :=
| mentions_array elementType n :
    mentions elementType n -> mentions (ArrayTypeNode elementType) n
| mentions_name n args :
    mentions (TypeReferenceNode n args) n
| mentions_argument m args a n :
    In a args -> mentions a n -> mentions (TypeReferenceNode m (Some args)) n
| mentions_union types t n :
    In t types -> mentions t n -> mentions (UnionTypeNode types) n.

(** [reaches symtab t n]: the name [n] is reachable from the type node
    [t] through array, union, type-argument and reference edges, a
    reference leading on to the declared types of the members of the entry
    it names. *)
Inductive reaches (symtab : Symtab) : TypeNode -> string -> Prop :=
| reaches_array elementType n :
    reaches symtab elementType n -> reaches symtab (ArrayTypeNode elementType) n
| reaches_name n args :
    reaches symtab (TypeReferenceNode n args) n
| reaches_argument m args a n :
    In a args -> reaches symtab a n ->
    reaches symtab (TypeReferenceNode m (Some args)) n
| reaches_member m args entry members key member n :
    lookup symtab m = Some entry -> e_members entry = Some members ->
    In (key, member) members -> reaches symtab (m_type member) n ->
    reaches symtab (TypeReferenceNode m args) n
| reaches_union types t n :
    In t types -> reaches symtab t n -> reaches symtab (UnionTypeNode types) n.

(** The relevance flag of the entry [n] is set. *)
Definition marked (symtab : Symtab) (n : string) : Prop :=
  exists entry, lookup symtab n = Some entry /\ e_relevant entry = true.

(** [marksWithin P s s']: [s'] is [s] with the relevance flag set on some
    entries whose keys satisfy [P]; nothing else differs. *)
Definition marksWithin (P : string -> Prop) (s s' : Symtab) : Prop :=
  keys s' = keys s /\
  forall k e, lookup s k = Some e ->
    lookup s' k = Some e \/ (lookup s' k = Some (setRelevant e) /\ P k).

(** Flags set, anywhere. *)
Definition flagsUp := marksWithin (fun _ => True).




Create HintDb marking.

(** The types of an endpoint's signature: its parameters, then its
    return type. *)
Definition signatureTypes (method : DecoratedFunction) : list TypeNode :=
  (map p_type (methodParameters method)
     ++ match returnType method with Some t => [t] | None => [] end)%list.

(** Names reachable from the signature of an endpoint, and from the
    signature of some endpoint of a list. *)
Definition signatureReaches (s : Symtab) (method : DecoratedFunction) (k : string)
  : Prop :=
  exists t, In t (signatureTypes method) /\ reaches s t k.

Definition endpointReaches (s : Symtab) (items : list DecoratedFunction) (k : string)
  : Prop :=
  exists item, In item items /\ signatureReaches s item k.

(** No entry has its relevance flag set: the registry as pass 1 leaves
    it (no declaration is created with the flag). *)
Definition allUnmarked (s : Symtab) : bool :=
  forallb (fun ke => negb (e_relevant (snd ke))) s.

(** [options.expandRefs] is not set. *)
Definition noExpand (options : option Options) : bool :=
  match options with
  | Some (mkOptions true _) => false
  | _ => true
  end.

(** A registry as pass 1 builds it: one entry per key, no flag set. *)
Definition freshRegistry (s : Symtab) : Prop :=
  NoDup (keys s) /\ allUnmarked s = true.

(** A statement keeps the registry fresh, however it ends. *)
Definition keepsFresh (f : State -> Effect) : Prop :=
  forall s, freshRegistry (symtab s) -> freshRegistry (symtab (fst (f s))).



(** The shape [applyValueTag] and [applyTypenameTag] share: [top] is
    applied to the fragment when it has a type other than "null", else to
    each such leaf of its [oneOf]. *)
Definition onTyped (top : Schema -> Schema) (s : Schema) : Schema :=
  if hasLiveType s then top s
  else
    match s_oneOf s with
    | Some leaves =>
        setOneOf (Some (map (fun leaf => if hasLiveType leaf then top leaf else leaf) leaves)) s
    | None => s
    end.

(** The tag is a [type] tag whose name expression is "null". *)
Definition renamesToNull (t : Tag) : bool :=
  String.eqb (title t) "type"
  && match tag_type t with
     | Some ty => String.eqb (tt_type ty) "NameExpression" && String.eqb (tt_name ty) "null"
     | None => false
     end.

(** Two tags applied one after the other. *)
Definition applyBoth (s : Schema) (t1 t2 : Tag) : outcome Schema :=
  r <- applyTag s (Some t1) ;; applyTag r (Some t2).

(** [top] keeps a typed fragment typed and does not touch [oneOf]. *)
Definition keepsShape (top : Schema -> Schema) : Prop :=
  forall s, (hasLiveType s = true -> hasLiveType (top s) = true)
            /\ s_oneOf (top s) = s_oneOf s.

(** What a tag does, when it does not throw: a rewriting of the typed
    parts of the fragment. *)
Inductive TagAction : Type :=
| Rewrite (top : Schema -> Schema)
| Keep
| Fail (e : exn).

(** The action of a tag, by the cases of [applyTag]. *)
Definition tagAction (t : Tag) : TagAction :=
  if String.eqb (title t) "minimum" || String.eqb (title t) "maximum"
  then Rewrite (setValue (title t) (parseInt (description t)))
  else if String.eqb (title t) "type" then
    match tag_type t with
    | Some ty =>
        if String.eqb (tt_type ty) "NameExpression"
        then Rewrite (setType (Some (tt_name ty)))
        else Keep
    | None => Fail (TypeError "Cannot read property 'type' of undefined")
    end
  else Keep.

(** The effect of an action on a fragment. *)
Definition act (a : TagAction) (s : Schema) : outcome Schema :=
  match a with
  | Rewrite top => Ok (onTyped top s)
  | Keep => Ok s
  | Fail e => Throw e
  end.

(** Projections of a run. *)
Definition documentPaths (run : Run) : option (list string) :=
  option_map (fun d => keys (paths d)) (swaggerFile (fst run)).
Definition routePaths (run : Run) : option (list string) :=
  option_map (fun r => map h_path (rm_handlers r)) (routesFile (fst run)).
(** The response recorded in the document for a path and a verb. *)
Definition documentResponse (run : Run) (path verb : string) : option Response :=
  match swaggerFile (fst run) with
  | Some d =>
      match lookup (paths d) path with
      | Some item => option_map op_responses (lookup item verb)
      | None => None
      end
  | None => None
  end.

(* ================================================================== *)
(** * Sample declarations                                               *)
(* ================================================================== *)

(** A checker that finds no documented symbol. *)
Definition noDoc : TypeNode -> option string := fun _ => None.

(** [@minimum text] *)
Definition minimumTag (text : string) : Tag := mkTag "minimum" (Some text) None.

(** A [type] tag whose type expression is the name [name]. *)
Definition typeTag (name : string) : Tag :=
  mkTag "type" None (Some (mkTagType "NameExpression" name)).

(** A reference without type arguments. *)
Definition ref (n : string) : TypeNode := TypeReferenceNode n None.

(** An interface with the given members and an empty comment. *)
Definition typeEntryWith (members : dict Member) : Entry :=
  setMembers (Some members) (newTypeEntry (Some "")).

(** A member of type [n], as [visit2] records it. *)
Definition refMember (n : string) : Member :=
  mkMember (setRef (Some ("#/components/schemas/" ++ n)) emptySchema) (ref n) false.


(** [interface A { b: B }  interface B { n: number }] *)
Definition chainPair : Symtab :=
  [("A", typeEntryWith [("b", refMember "B")]);
   ("B", typeEntryWith [("n", mkMember (typeOnly "number") (TokenObject NumberKeyword) false)])].


(** The schema of the [any] keyword. *)
Definition anySchema : Schema :=
  setOneOf (Some [typeOnly "object"; typeOnly "number"; typeOnly "string"]) emptySchema.

(** [chainPair] and a declaration [C] nothing refers to. *)
Definition sampleRegistry : Symtab :=
  (chainPair ++ [("C", typeEntryWith [])])%list.

(** [list(w: A): string] of the controller [Widgets]. *)
Definition sampleEndpoint : DecoratedFunction :=
  mkDecoratedFunction "Widgets" None "list" [] [mkTypedId "w" (ref "A")]
    (Some (TokenObject StringKeyword)) "get".

(** The marking pass over that endpoint, and what it returns. *)
Definition samplePass : outcome (list MethodEntry * Symtab) :=
  Eval vm_compute in methodEntries noDoc 3 [sampleEndpoint] sampleRegistry.

Definition sampleEntries : list MethodEntry :=
  Eval vm_compute in match samplePass with Ok (e, _) => e | _ => [] end.
Definition sampleMarked : Symtab :=
  Eval vm_compute in match samplePass with Ok (_, s) => s | _ => [] end.

(** [@name(arguments)], the decorator being imported under its own name. *)
Definition decorator (name : string) (arguments : list DecoratorArg) : Decorator :=
  mkDecorator name (Some (name, arguments)).




(** [@router('/api') class Api {}] *)
Definition apiRouter : Node :=
  ClassDeclaration (Some [decorator "router" [StringLiteral "'/api'"]])
    "Api" "api.ts" "" [].

(** [interface Widget { id: number; name: string }] *)
Definition widgetInterface : Node :=
  InterfaceDeclaration "Widget" ""
    [mkPropertySignature (Some "id") (Some (TokenObject NumberKeyword)) [] false (inr []);
     mkPropertySignature (Some "name") (Some (TokenObject StringKeyword)) [] false (inr [])].

(** The declaration of [Promise] in the compiler's library file. *)
Definition promiseInterface : Node := InterfaceDeclaration "Promise" "" [].

(** [@controller('/widgets') class Widgets] with
    [@get('all') list(): Promise<Widget[]>] and [@get() one(): Widget]. *)
Definition widgetsController : Node :=
  ClassDeclaration (Some [decorator "controller" [StringLiteral "'/widgets'"]])
    "Widgets" "widgets.ts" ""
    [MethodDeclaration (Some [decorator "get" [StringLiteral "'all'"]]) "list" "" []
       (Some (TypeReferenceNode "Promise" (Some [ArrayTypeNode (ref "Widget")])));
     MethodDeclaration (Some [decorator "get" []]) "one" "" []
       (Some (ref "Widget"))].

Definition widgetsProgram : list SourceFile :=
  [("lib.d.ts", [promiseInterface]);
   ("widgets.ts", [widgetInterface; widgetsController; apiRouter])].

(** The same, with a second [@controller class Widgets] in another file. *)
Definition duplicateProgram : list SourceFile :=
  (widgetsProgram
     ++ [("more.ts",
          [ClassDeclaration (Some [decorator "controller" []]) "Widgets" "more.ts" "" []])])%list.


(** [@get() ping()] without a return type annotation. *)
Definition untypedProgram : list SourceFile :=
  [("ping.ts",
    [apiRouter;
     ClassDeclaration (Some [decorator "controller" []]) "Ping" "ping.ts" ""
       [MethodDeclaration (Some [decorator "get" []]) "ping" "" [] None]])].

(** The definition [symtabToSchemaDefinitions] builds for [Widget]. *)
Definition widgetDefinition : Schema :=
  setRequired (Some ["id"; "name"])
    (setProperties (Some [("id", typeOnly "number"); ("name", typeOnly "string")])
       (setDescription (Some "") (typeOnly "object"))).

(** The state of the traversal once [Widgets] is registered. *)
Definition widgetsRegistered : State :=
  mkState [("Widgets", newClassEntry ControllerDecl "Widgets" "widgets.ts" (Some ""))]
    [] [] [].

(* ================================================================== *)
(** * Dictionaries: basic facts                                         *)
(* ================================================================== *)

Unset Strict Implicit.

Section DictFacts.
Variable V : Type.
Implicit Types (o : dict V) (k : string).

Lemma lookup_update o k k' (f : V -> V) :
  lookup (update o k f) k'
  = if String.eqb k k' then option_map f (lookup o k) else lookup o k'.
Proof.
  induction o as [|[k0 v0] r IH]; simpl.
  - destruct (String.eqb k k'); reflexivity.
  - destruct (String.eqb k k0) eqn:E0; simpl.
    + apply String.eqb_eq in E0. subst k0.
      destruct (String.eqb k k') eqn:E1.
      * apply String.eqb_eq in E1. subst k'. rewrite String.eqb_refl. reflexivity.
      * rewrite String.eqb_sym, E1. reflexivity.
    + destruct (String.eqb k' k0) eqn:E2.
      * apply String.eqb_eq in E2. subst k0.
        rewrite String.eqb_sym in E0.
        rewrite String.eqb_sym, E0. reflexivity.
      * exact IH.
Qed.

Lemma keys_update o k (f : V -> V) : keys (update o k f) = keys o.
Proof.
  induction o as [|[k0 v0] r IH]; simpl; [reflexivity|].
  destruct (String.eqb k k0); simpl; [reflexivity|].
  f_equal. exact IH.
Qed.

Lemma lookup_None o k : lookup o k = None <-> ~ In k (keys o).
Proof.
  induction o as [|[k0 v0] r IH]; simpl.
  - tauto.
  - destruct (String.eqb k k0) eqn:E.
    + apply String.eqb_eq in E. subst. split; [discriminate|tauto].
    + apply String.eqb_neq in E. rewrite IH. split.
      * intros H [H1|H1]; [congruence|tauto].
      * tauto.
Qed.

Lemma lookup_Some_In o k v : lookup o k = Some v -> In (k, v) o.
Proof.
  induction o as [|[k0 v0] r IH]; simpl; [discriminate|].
  destruct (String.eqb k k0) eqn:E.
  - apply String.eqb_eq in E. subst. intros [= ->]. now left.
  - intros H. right. now apply IH.
Qed.

Lemma In_lookup_NoDup o k v : NoDup (keys o) -> In (k, v) o -> lookup o k = Some v.
Proof.
  induction o as [|[k0 v0] r IH]; simpl; [tauto|].
  intros ND [H|H].
  - injection H as -> ->. now rewrite String.eqb_refl.
  - inversion ND as [|? ? Hnot ND']; subst.
    destruct (String.eqb k k0) eqn:E.
    + apply String.eqb_eq in E. subst k0. exfalso. apply Hnot.
      change (In (fst (k, v)) (map fst r)). now apply in_map.
    + now apply IH.
Qed.


Lemma lookup_keys_eq o o' k :
  keys o' = keys o -> lookup o k = None -> lookup o' k = None.
Proof.
  intros HK H. apply lookup_None. rewrite HK. now apply lookup_None.
Qed.

End DictFacts.

(* ================================================================== *)
(** * Relevance marking: what a completed marking has done              *)
(* ================================================================== *)

Lemma setRelevant_idem e : setRelevant (setRelevant e) = setRelevant e.
Proof. reflexivity. Qed.


Lemma marksWithin_refl P s : marksWithin P s s.
Proof. split; [reflexivity|]. intros k e H. now left. Qed.

Lemma marksWithin_weaken (P Q : string -> Prop) s s' :
  (forall k, P k -> Q k) -> marksWithin P s s' -> marksWithin Q s s'.
Proof.
  intros PQ [HK H]. split; [exact HK|].
  intros k e Hk. destruct (H k e Hk) as [H1|[H1 H2]]; [now left|right; auto].
Qed.

Lemma marksWithin_trans P s1 s2 s3 :
  marksWithin P s1 s2 -> marksWithin P s2 s3 -> marksWithin P s1 s3.
Proof.
  intros [K1 H1] [K2 H2]. split; [congruence|].
  intros k e Hk. destruct (H1 k e Hk) as [Ha|[Ha Pa]].
  - exact (H2 k e Ha).
  - destruct (H2 k _ Ha) as [Hb|[Hb Pb]]; right; split; auto.
Qed.

Lemma marksWithin_update s m e :
  lookup s m = Some e -> marksWithin (eq m) s (update s m setRelevant).
Proof.
  intros Hm. split; [apply keys_update|].
  intros k e' Hk. rewrite lookup_update.
  destruct (String.eqb m k) eqn:E.
  - apply String.eqb_eq in E. subst k. rewrite Hk. simpl. right. auto.
  - now left.
Qed.

(** Entries present after a marking were present before, with the same
    properties apart from the flag. *)
Lemma marksWithin_back P s s' k e' :
  marksWithin P s s' -> lookup s' k = Some e' ->
  exists e, lookup s k = Some e /\ (e' = e \/ e' = setRelevant e).
Proof.
  intros [HK H] Hk. destruct (lookup s k) as [e|] eqn:E.
  - exists e. split; [reflexivity|].
    destruct (H k e E) as [H1|[H1 _]]; rewrite H1 in Hk; injection Hk as <-; auto.
  - rewrite (lookup_keys_eq HK E) in Hk. discriminate.
Qed.

Lemma marksWithin_members P s s' k e :
  marksWithin P s s' -> lookup s k = Some e ->
  exists e', lookup s' k = Some e' /\ e_members e' = e_members e
             /\ (e_relevant e = true -> e_relevant e' = true).
Proof.
  intros [_ H] Hk. destruct (H k e Hk) as [H1|[H1 _]]; eexists; (split; [exact H1|]); auto.
Qed.


Lemma marked_preserved P s s' n : marksWithin P s s' -> marked s n -> marked s' n.
Proof.
  intros M (e & He & Hr). destruct (marksWithin_members M He) as (e' & A & _ & B).
  exists e'. auto.
Qed.

Lemma reaches_forward P s s' t n : marksWithin P s s' -> reaches s t n -> reaches s' t n.
Proof.
  intros M R. induction R.
  - now apply reaches_array.
  - apply reaches_name.
  - eapply reaches_argument; eauto.
  - destruct (marksWithin_members M H) as (e' & A & B & _).
    eapply reaches_member; eauto. congruence.
  - eapply reaches_union; eauto.
Qed.

Lemma reaches_backward P s s' t n : marksWithin P s s' -> reaches s' t n -> reaches s t n.
Proof.
  intros M R. induction R.
  - now apply reaches_array.
  - apply reaches_name.
  - eapply reaches_argument; eauto.
  - destruct (marksWithin_back M H) as (e & A & B).
    eapply reaches_member; eauto.
    destruct B as [->| ->]; [assumption|exact H0].
  - eapply reaches_union; eauto.
Qed.

Lemma marksWithin_flagsUp P s s' : marksWithin P s s' -> flagsUp s s'.
Proof. apply marksWithin_weaken. auto. Qed.

(** Induction on type nodes, through the lists of arguments and of
    union members. *)
Lemma TypeNode_nested_ind (P : TypeNode -> Prop) :
  (forall kind, P (TokenObject kind)) ->
  (forall elementType, P elementType -> P (ArrayTypeNode elementType)) ->
  (forall typeName args, Forall P (argList args) -> P (TypeReferenceNode typeName args)) ->
  (forall types, Forall P types -> P (UnionTypeNode types)) ->
  (forall value text, P (LiteralTypeNode value text)) ->
  (forall kind, P (NodeObject kind)) ->
  (forall constructorName, P (ForeignObject constructorName)) ->
  forall t, P t.
Proof.
  intros HT HA HR HU HL HN HF.
  fix IH 1. intros [kind|e|n args|types|v x|kind|c].
  - apply HT.
  - apply HA, IH.
  - apply HR. destruct args as [args|]; [|constructor].
    simpl. induction args as [|a r IHr]; constructor; [apply IH|exact IHr].
  - apply HU. induction types as [|a r IHr]; constructor; [apply IH|exact IHr].
  - apply HL.
  - apply HN.
  - apply HF.
Qed.

Section Loops.
Variables (A S : Type).
Implicit Types (body : A -> S -> outcome S) (l : list A).

Lemma forEach_cons_Ok body a l s s' :
  forEach body (a :: l) s = Ok s' ->
  exists s1, body a s = Ok s1 /\ forEach body l s1 = Ok s'.
Proof.
  simpl. destruct (body a s) as [s1| |]; simpl; try discriminate. eauto.
Qed.

(** A loop whose iterations all complete inside a preorder [R]. *)
Lemma forEach_invariant (R : S -> S -> Prop) body l :
  (forall s, R s s) -> (forall a b c, R a b -> R b c -> R a c) ->
  forall s0,
  (forall a s s', In a l -> R s0 s -> body a s = Ok s' -> R s s') ->
  forall s s', R s0 s -> forEach body l s = Ok s' -> R s s'.
Proof.
  intros Rrefl Rtrans s0. induction l as [|a r IH]; intros Hbody s s' Hs H.
  - injection H as <-. apply Rrefl.
  - apply forEach_cons_Ok in H. destruct H as (s1 & H1 & H2).
    assert (R s s1) by (eapply Hbody; eauto; now left).
    eapply Rtrans; [eassumption|].
    apply IH; eauto.
    intros; eapply Hbody; eauto. now right.
Qed.

(** The iteration of a given element, inside a completed loop. *)
Lemma forEach_In_Ok (R : S -> S -> Prop) body l :
  (forall s, R s s) -> (forall a b c, R a b -> R b c -> R a c) ->
  (forall a s s', body a s = Ok s' -> R s s') ->
  forall a s s', In a l -> forEach body l s = Ok s' ->
  exists x x', R s x /\ body a x = Ok x' /\ R x' s'.
Proof.
  intros Rrefl Rtrans Hbody a. induction l as [|b r IH]; intros s s' Hin H; [easy|].
  apply forEach_cons_Ok in H. destruct H as (s1 & H1 & H2).
  assert (R s1 s').
  { eapply forEach_invariant with (s0 := s1); eauto. }
  destruct Hin as [->|Hin].
  - exists s, s1. auto.
  - destruct (IH _ _ Hin H2) as (x & x' & X1 & X2 & X3).
    exists x, x'. split; [|split; [exact X2|exact X3]].
    eapply Rtrans; eauto.
Qed.




End Loops.

Lemma flagsUp_refl s : flagsUp s s.
Proof. apply marksWithin_refl. Qed.

Lemma flagsUp_trans a b c : flagsUp a b -> flagsUp b c -> flagsUp a c.
Proof. apply marksWithin_trans. Qed.

#[local] Hint Resolve flagsUp_refl flagsUp_trans marksWithin_flagsUp : marking.

Lemma In_argList a args : In a (argList args) -> exists l, args = Some l /\ In a l.
Proof. destruct args as [l|]; simpl; [eauto|tauto]. Qed.

(** ** Soundness: a completed marking sets flags on reachable names only *)

Lemma markAsRelevant_sound fuel :
  forall t s s', markAsRelevant fuel t s = Ok s' -> marksWithin (reaches s t) s s'.
Proof.
  induction fuel as [|fuel IH]; intros t s s' H; [discriminate|].
  destruct t as [kind|e|m args|types|v x|kind|c]; simpl in H;
    try (injection H as <-; apply marksWithin_refl).
  - apply IH in H. eapply marksWithin_weaken; [|exact H].
    intros k. apply reaches_array.
  - destruct (lookup s m) as [e0|] eqn:Em; [|discriminate].
    pose proof (marksWithin_update Em) as M1.
    set (s1 := update s m setRelevant) in *.
    destruct (forEach (markAsRelevant fuel) (argList args) s1) as [s2| |] eqn:Eargs;
      simpl in H; try discriminate.
    assert (M2 : marksWithin (reaches s (TypeReferenceNode m args)) s s2).
    { eapply forEach_invariant with (s0 := s)
        (R := marksWithin (reaches s (TypeReferenceNode m args))) in Eargs.
      - eapply marksWithin_trans; [|exact Eargs].
        eapply marksWithin_weaken; [|exact M1]. intros k <-. apply reaches_name.
      - apply marksWithin_refl.
      - apply marksWithin_trans.
      - intros a x x' Hin Hx Ha. apply IH in Ha.
        eapply marksWithin_weaken; [|exact Ha]. intros k Hk.
        apply In_argList in Hin. destruct Hin as (l & -> & Hin).
        eapply reaches_argument; [exact Hin|].
        eapply reaches_backward; eauto.
      - eapply marksWithin_weaken; [|exact M1]. intros k <-. apply reaches_name. }
    destruct (marksWithin_members M2 Em) as (e2 & E2 & Hmem & _).
    rewrite E2 in H.
    eapply marksWithin_trans; [exact M2|].
    eapply forEach_invariant with (s0 := s)
      (R := marksWithin (reaches s (TypeReferenceNode m args))) in H; eauto.
    + apply marksWithin_refl.
    + apply marksWithin_trans.
    + intros [key member] x x' Hin Hx Ha. simpl in Ha. apply IH in Ha.
      eapply marksWithin_weaken; [|exact Ha]. intros k Hk.
      destruct (e_members e2) as [ms|] eqn:Ems; [|destruct Hin].
      eapply reaches_member; [exact Em|symmetry; exact Hmem|exact Hin|].
      eapply reaches_backward; eauto.
  - eapply forEach_invariant with (s0 := s)
      (R := marksWithin (reaches s (UnionTypeNode types))) in H; eauto.
    + apply marksWithin_refl.
    + apply marksWithin_trans.
    + intros a x x' Hin Hx Ha. apply IH in Ha.
      eapply marksWithin_weaken; [|exact Ha]. intros k Hk.
      eapply reaches_union; [exact Hin|]. eapply reaches_backward; eauto.
    + apply marksWithin_refl.
Qed.

Lemma markAsRelevant_flagsUp fuel t s s' :
  markAsRelevant fuel t s = Ok s' -> flagsUp s s'.
Proof. intros H. eapply marksWithin_flagsUp, markAsRelevant_sound, H. Qed.

(** ** Completeness: a completed marking has set the flag of every
    reachable name *)

Lemma marked_update s m e : lookup s m = Some e -> marked (update s m setRelevant) m.
Proof.
  intros H. exists (setRelevant e). split; [|reflexivity].
  rewrite lookup_update, String.eqb_refl, H. reflexivity.
Qed.

Lemma markAsRelevant_complete fuel :
  forall t s s', markAsRelevant fuel t s = Ok s' ->
  forall n, reaches s t n -> marked s' n.
Proof.
  induction fuel as [|fuel IH]; intros t s s' H n R; [discriminate|].
  destruct t as [kind|e|m args|types|v x|kind|c]; simpl in H;
    try (inversion R; fail).
  - inversion R; subst. eapply IH; eauto.
  - destruct (lookup s m) as [e0|] eqn:Em; [|discriminate].
    pose proof (marksWithin_update Em) as M1.
    pose proof (marked_update Em) as K1.
    set (s1 := update s m setRelevant) in *.
    destruct (forEach (markAsRelevant fuel) (argList args) s1) as [s2| |] eqn:Eargs;
      simpl in H; try discriminate.
    assert (F2 : flagsUp s1 s2).
    { eapply forEach_invariant with (s0 := s1) (R := flagsUp); eauto with marking.
      intros a x x' _ _. apply markAsRelevant_flagsUp. }
    assert (F1 : flagsUp s s1) by eauto with marking.
    destruct (marksWithin_members (flagsUp_trans F1 F2) Em) as (e2 & E2 & Hmem & _).
    rewrite E2 in H.
    assert (F3 : flagsUp s2 s').
    { eapply forEach_invariant with (s0 := s2) (R := flagsUp); eauto with marking.
      intros a x x' _ _. apply markAsRelevant_flagsUp. }
    inversion R; subst.
    + eapply marked_preserved; [exact F3|].
      eapply marked_preserved; [exact F2|]. exact K1.
    + destruct (forEach_In_Ok (R := flagsUp) flagsUp_refl flagsUp_trans
                  (fun a x x' => @markAsRelevant_flagsUp fuel a x x')
                  (a := a) (l := args0) (s := s1) (s' := s2))
        as (x & x' & X1 & X2 & X3); auto.
      eapply marked_preserved; [exact F3|].
      eapply marked_preserved; [exact X3|].
      eapply IH; [exact X2|].
      eapply reaches_forward; [|eassumption].
      exact (flagsUp_trans F1 X1).
    + assert (Hms : e_members e2 = Some members) by congruence.
      rewrite Hms in H.
      destruct (forEach_In_Ok (R := flagsUp) flagsUp_refl flagsUp_trans
                  (fun a x x' => @markAsRelevant_flagsUp fuel (m_type (snd a)) x x')
                  (a := (key, member)) (l := members) (s := s2) (s' := s'))
        as (x & x' & X1 & X2 & X3); auto.
      eapply marked_preserved; [exact X3|].
      eapply IH; [exact X2|]. simpl.
      eapply reaches_forward; [|eassumption].
      exact (flagsUp_trans (flagsUp_trans F1 F2) X1).
  - inversion R; subst.
    destruct (forEach_In_Ok (R := flagsUp) flagsUp_refl flagsUp_trans
                (fun a x x' => @markAsRelevant_flagsUp fuel a x x')
                (a := t) (l := types) (s := s) (s' := s'))
      as (x & x' & X1 & X2 & X3); auto.
    eapply marked_preserved; [exact X3|].
    eapply IH; [exact X2|].
    eapply reaches_forward; eassumption.
Qed.

(** ** The only exception of a marking is an undefined type *)


(** ** Marking again changes nothing *)


(** ** More fuel does not change a result *)


(** ** Termination on a registry without reference cycles *)







(* ================================================================== *)
(** * Translation without [expandRefs] leaves the registry alone       *)
(* ================================================================== *)

Section PlainTranslation.
Variable symbolDoc : TypeNode -> option string.

Lemma typeToJSON_noExpand :
  forall t jsDoc options s, noExpand options = true ->
    typeToJSON symbolDoc t jsDoc options s
    = (r <- typeToJSON symbolDoc t jsDoc options [] ;; Ok (fst r, s)).
Proof.
  induction t as [kind|e IHe|m args IHargs|types IHtypes|v x|kind|c]
    using TypeNode_nested_ind; intros jsDoc options s N.
  - simpl. destruct (tokenObjectToJSON kind jsDoc) as [[r|]| |]; simpl; try reflexivity.
    destruct (applyTags jsDoc r); reflexivity.
  - simpl. rewrite (IHe jsDoc options s N).
    destruct (typeToJSON symbolDoc e jsDoc options []) as [[r x]| |]; simpl; try reflexivity.
    destruct (applyTags jsDoc _); reflexivity.
  - simpl. destruct (String.eqb m "Array").
    + destruct args as [[|a l]|]; try reflexivity.
      simpl in IHargs. inversion IHargs as [|? ? Ha _]; subst.
      rewrite (Ha jsDoc options s N).
      destruct (typeToJSON symbolDoc a jsDoc options []) as [[r x]| |]; simpl; try reflexivity.
      destruct (applyTags jsDoc _); reflexivity.
    + destruct (maptypeDescName _ m) as [res|]; [|reflexivity].
      destruct options as [[[|] d]|]; try discriminate;
        destruct (s_ref res); simpl; destruct (applyTags jsDoc res); reflexivity.
  - simpl.
    set (loop := fix unionToJSON (l : list TypeNode) (symtab : Symtab)
                   : outcome (list Schema * Symtab) :=
           match l with
           | [] => Ok ([], symtab)
           | t :: r =>
               '(unionElement, symtab1) <- typeToJSON symbolDoc t [] None symtab ;;
               '(rest, symtab2) <- unionToJSON r symtab1 ;;
               Ok (match unionElement with
                   | Some e => e :: rest
                   | None => rest
                   end, symtab2)
           end).
    assert (L : forall s, loop types s = (r <- loop types [] ;; Ok (fst r, s))).
    { induction IHtypes as [|a l Ha _ IHl]; intros s'; [reflexivity|].
      simpl. rewrite (Ha [] None s' eq_refl).
      destruct (typeToJSON symbolDoc a [] None []) as [[r x]| |]; simpl; try reflexivity.
      rewrite (IHl s'), (IHl x).
      destruct (loop l []) as [[r' x']| |]; reflexivity. }
    rewrite (L s).
    destruct (loop types []) as [[r x]| |]; simpl; try reflexivity.
    destruct (applyTags jsDoc _); reflexivity.
  - simpl. destruct (literalToJSON v x) as [[r|]| |]; simpl; try reflexivity.
    destruct (applyTags jsDoc r); reflexivity.
  - simpl. destruct kind; reflexivity.
  - reflexivity.
Qed.

Lemma typeToJSON_noExpand_Ok t jsDoc options s r s' :
  noExpand options = true ->
  typeToJSON symbolDoc t jsDoc options s = Ok (r, s') ->
  s' = s /\ forall x, typeToJSON symbolDoc t jsDoc options x = Ok (r, x).
Proof.
  intros N. rewrite (typeToJSON_noExpand t jsDoc s N).
  destruct (typeToJSON symbolDoc t jsDoc options []) as [[r0 x0]| |] eqn:E;
    simpl; try discriminate.
  intros [= <- <-]. split; [reflexivity|].
  intros x. rewrite (typeToJSON_noExpand t jsDoc x N), E. reflexivity.
Qed.
Lemma typeToJSON_plain_Ok t jsDoc s r s' :
typeToJSON symbolDoc t jsDoc None s = Ok (r, s') ->
s' = s /\ forall x, typeToJSON symbolDoc t jsDoc None x = Ok (r, x).
Proof. now apply typeToJSON_noExpand_Ok. Qed.

End PlainTranslation.

(* ================================================================== *)
(** * The marking pass over the endpoints                               *)
(* ================================================================== *)

Section Pass.
Variable symbolDoc : TypeNode -> option string.

Lemma parameterToJSON_Ok fuel p props s props' s' :
  parameterToJSON symbolDoc fuel None p (props, s) = Ok (props', s') ->
  marksWithin (reaches s (p_type p)) s s' /\
  (forall j x, typeToJSON symbolDoc (p_type p) [] None x = Ok (Some j, x) ->
               forall n, reaches s (p_type p) n -> marked s' n).
Proof.
  unfold parameterToJSON.
  destruct (typeToJSON symbolDoc (p_type p) [] None s) as [[j s1]| |] eqn:E;
    simpl; try discriminate.
  destruct (typeToJSON_plain_Ok E) as [-> Hx].
  destruct j as [j|].
  - destruct (markAsRelevant fuel (p_type p) s) as [s2| |] eqn:M; simpl; try discriminate.
    intros [= <- <-]. split.
    + eapply markAsRelevant_sound; eauto.
    + intros _ _ _ n R. eapply markAsRelevant_complete; eauto.
  - intros [= <- <-]. split; [apply marksWithin_refl|].
    intros j x Hj. rewrite Hx in Hj. discriminate.
Qed.

Lemma parameterListToJSON_Ok fuel method s pl s' :
  parameterListToJSON symbolDoc fuel method None s = Ok (pl, s') ->
  marksWithin (signatureReaches s method) s s' /\
  (forall t, returnType method = Some t ->
             forall n, reaches s t n -> marked s' n) /\
  (forall p j x, In p (methodParameters method) ->
                 typeToJSON symbolDoc (p_type p) [] None x = Ok (Some j, x) ->
                 forall n, reaches s (p_type p) n -> marked s' n).
Proof.
  unfold parameterListToJSON.
  destruct (forEach (parameterToJSON symbolDoc fuel None) (methodParameters method)
              ([], s)) as [[props s1]| |] eqn:E; simpl; try discriminate.
  destruct (returnType method) as [rt|] eqn:Ert; simpl; try discriminate.
  destruct (markAsRelevant fuel rt s1) as [s2| |] eqn:M; simpl; try discriminate.
  intros [= <- <-].
  set (R := fun (a b : dict Schema * Symtab) =>
              marksWithin (signatureReaches s method) (snd a) (snd b)).
  assert (Rrefl : forall a, R a a) by (intros a; apply marksWithin_refl).
  assert (Rtrans : forall a b c, R a b -> R b c -> R a c)
    by (intros a b c; apply marksWithin_trans).
  assert (Hbody : forall p a a', In p (methodParameters method) ->
            R ([], s) a -> parameterToJSON symbolDoc fuel None p a = Ok a' -> R a a').
  { intros p [pr x] [pr' x'] Hin Hx Hp. unfold R in *. simpl in *.
    apply parameterToJSON_Ok in Hp. destruct Hp as [Hp _].
    eapply marksWithin_weaken; [|exact Hp].
    intros k Hk. exists (p_type p). split.
    - unfold signatureTypes. apply in_or_app. left. now apply in_map.
    - eapply reaches_backward; eauto. }
  assert (M1 : marksWithin (signatureReaches s method) s s1).
  { apply (forEach_invariant (R := R) Rrefl Rtrans (s0 := ([], s)) Hbody
             (Rrefl _) E). }
  assert (M2 : marksWithin (signatureReaches s method) s1 s2).
  { eapply marksWithin_weaken; [|eapply markAsRelevant_sound; exact M].
    intros k Hk. exists rt. split.
    - unfold signatureTypes. rewrite Ert. apply in_or_app. right. now left.
    - eapply reaches_backward; eauto. }
  split; [eapply marksWithin_trans; eauto|]. split.
  - intros t [= <-] n Rn. eapply markAsRelevant_complete; [exact M|].
    eapply reaches_forward; eauto.
  - intros p j x Hin Hj n Rn.
    set (R' := fun (a b : dict Schema * Symtab) => flagsUp (snd a) (snd b)).
    destruct (@forEach_In_Ok _ _ R' (parameterToJSON symbolDoc fuel None)
                (methodParameters method)) with (a := p) (s := (@nil (string * Schema), s))
                (s' := (props, s1)) as ([pr y] & [pr' y'] & Y1 & Y2 & Y3); auto.
    + intros a; apply flagsUp_refl.
    + intros a b c; apply flagsUp_trans.
    + intros q [pa a] [pb b] Hq. apply parameterToJSON_Ok in Hq.
      destruct Hq as [Hq _]. unfold R'. simpl. eapply marksWithin_flagsUp; eauto.
    + unfold R' in *. simpl in *.
      apply parameterToJSON_Ok in Y2. destruct Y2 as [_ Y2].
      eapply marked_preserved; [eapply marksWithin_flagsUp; exact M2|].
      eapply marked_preserved; [exact Y3|].
      eapply Y2; [exact Hj|]. eapply reaches_forward; eauto.
Qed.

Lemma methodEntries_Ok fuel items s entries s' :
  methodEntries symbolDoc fuel items s = Ok (entries, s') ->
  marksWithin (endpointReaches s items) s s'.
Proof.
  unfold methodEntries. intros E.
  set (R := fun (a b : list MethodEntry * Symtab) =>
              marksWithin (endpointReaches s items) (snd a) (snd b)).
  apply (@forEach_invariant _ _ R (methodEntry symbolDoc fuel) items) with (s0 := ([], s))
    in E.
  - exact E.
  - intros a; apply marksWithin_refl.
  - intros a b c; apply marksWithin_trans.
  - intros item [en x] [en' x'] Hin Hx Hitem. unfold R in *. simpl in *.
    destruct (parameterListToJSON symbolDoc fuel item None x) as [[pl y]| |] eqn:P;
      simpl in Hitem; try discriminate.
    injection Hitem as _ <-.
    apply parameterListToJSON_Ok in P. destruct P as [P _].
    eapply marksWithin_weaken; [|exact P].
    intros k (t & Ht & Rt). exists item. split; [exact Hin|].
    exists t. split; [exact Ht|]. eapply reaches_backward; eauto.
  - apply marksWithin_refl.
Qed.

End Pass.

(* ================================================================== *)
(** * The registry pass 1 builds                                        *)
(* ================================================================== *)

Lemma keys_assign_new (V : Type) (o : dict V) k v :
  lookup o k = None -> keys (assign o k v) = (keys o ++ [k])%list.
Proof.
  induction o as [|[k0 v0] r IH]; simpl; [reflexivity|].
  destruct (String.eqb k k0); [discriminate|]. intros H. simpl. f_equal. now apply IH.
Qed.

Lemma keys_assign_old (V : Type) (o : dict V) k v w :
  lookup o k = Some w -> keys (assign o k v) = keys o.
Proof.
  induction o as [|[k0 v0] r IH]; simpl; [discriminate|].
  destruct (String.eqb k k0); [reflexivity|]. intros H. simpl. f_equal. now apply IH.
Qed.

Lemma NoDup_assign (V : Type) (o : dict V) k v :
  NoDup (keys o) -> NoDup (keys (assign o k v)).
Proof.
  intros ND. destruct (lookup o k) as [w|] eqn:E.
  - now rewrite (keys_assign_old v E).
  - rewrite (keys_assign_new v E).
    apply NoDup_app; [exact ND|repeat constructor; tauto|].
    intros x Hx [<-|[]]. now apply lookup_None in E.
Qed.

Lemma allUnmarked_assign s k e :
  allUnmarked s = true -> e_relevant e = false -> allUnmarked (assign s k e) = true.
Proof.
  intros H He. induction s as [|[k0 e0] r IH]; simpl in *.
  - now rewrite He.
  - apply andb_true_iff in H. destruct H as [H0 H1].
    destruct (String.eqb k k0); simpl.
    + now rewrite He, H1.
    + now rewrite H0, IH.
Qed.

Lemma allUnmarked_update s k f :
  (forall e, e_relevant (f e) = e_relevant e) ->
  allUnmarked s = true -> allUnmarked (update s k f) = true.
Proof.
  intros Hf H. induction s as [|[k0 e0] r IH]; simpl in *; [reflexivity|].
  apply andb_true_iff in H. destruct H as [H0 H1].
  destruct (String.eqb k k0); simpl.
  - now rewrite Hf, H0, H1.
  - now rewrite H0, IH.
Qed.

Lemma freshRegistry_assign s k e :
  freshRegistry s -> e_relevant e = false -> freshRegistry (assign s k e).
Proof.
  intros [ND U] He. split; [now apply NoDup_assign|now apply allUnmarked_assign].
Qed.

Lemma freshRegistry_update s k f :
  (forall e, e_relevant (f e) = e_relevant e) ->
  freshRegistry s -> freshRegistry (update s k f).
Proof.
  intros Hf [ND U]. split; [now rewrite keys_update|now apply allUnmarked_update].
Qed.

(** Induction on declarations, through the members of classes. *)
Lemma Node_nested_ind (P : Node -> Prop) :
  (forall decorators name fileName comment members,
      Forall P members -> P (ClassDeclaration decorators name fileName comment members)) ->
  (forall decorators name comment parameters type,
      P (MethodDeclaration decorators name comment parameters type)) ->
  (forall decorators name comment type, P (FunctionDeclaration decorators name comment type)) ->
  (forall name comment properties, P (InterfaceDeclaration name comment properties)) ->
  (forall decorators kind, P (OtherDeclaration decorators kind)) ->
  forall n, P n.
Proof.
  intros HC HM HF HI HO. fix IH 1. intros [d n f c members|d n c p t|d n c t|n c p|d k].
  - apply HC. induction members as [|a r IHr]; constructor; [apply IH|exact IHr].
  - apply HM.
  - apply HF.
  - apply HI.
  - apply HO.
Qed.

Lemma keepsFresh_each (A : Type) (body : A -> State -> Effect) l :
  (forall a, In a l -> keepsFresh (body a)) -> keepsFresh (each body l).
Proof.
  induction l as [|a r IH]; intros H s Hs; [exact Hs|].
  simpl. pose proof (H a (or_introl eq_refl) s Hs) as Ha.
  destruct (body a s) as [s1 [e|]]; simpl in *; [exact Ha|].
  apply IH; [intros; apply H; now right|exact Ha].
Qed.

Lemma keepsFresh_andThen (f g : State -> Effect) :
  keepsFresh f -> keepsFresh g -> keepsFresh (fun s => andThen (f s) g).
Proof.
  intros Hf Hg s Hs. pose proof (Hf s Hs) as H1.
  destruct (f s) as [s1 [e|]]; simpl in *; [exact H1|]. now apply Hg.
Qed.

Lemma keepsFresh_tryLog (f : State -> Effect) :
  keepsFresh f -> keepsFresh (fun s => tryLog (f s)).
Proof.
  intros Hf s Hs. pose proof (Hf s Hs) as H1.
  destruct (f s) as [s1 [e|]]; simpl in *; exact H1.
Qed.

Lemma genArgumentList_symtab arguments s :
  symtab (fst (genArgumentList arguments s)) = symtab s.
Proof.
  unfold genArgumentList.
  assert (G : forall acc : State * (list Arg + exn),
             symtab (fst (fold_left
               (fun (acc : State * (list Arg + exn)) arg =>
                  match acc with
                  | (s, inl argList) =>
                      match arg with
                      | StringLiteral text => (s, inl (argList ++ [ArgString (stripQuotes text)])%list)
                      | NumericLiteral shown => (s, inl (argList ++ [ArgNumber shown])%list)
                      | Identifier text => (s, inl (argList ++ [ArgString text])%list)
                      | FunctionExpression =>
                          (log "   ignoring function in decorator argument list" s, inl argList)
                      | OtherExpression kind =>
                          (s, inr (Thrown ("unknown type (" ++ showN kind
                                             ++ ") in decorator argument list")))
                      end
                  | stopped => stopped
                  end) arguments acc)) = symtab (fst acc)).
  { induction arguments as [|a r IH]; intros acc; [reflexivity|].
    simpl. rewrite IH. destruct acc as [x [l|e]]; [|reflexivity].
    destruct a; reflexivity. }
  apply (G (s, inl [])).
Qed.

Section Pass1.
Variable symbolDoc : TypeNode -> option string.

Lemma keepsFresh_recordEndpoint owner idText arguments parentName comment params rt :
  keepsFresh (recordEndpoint owner idText arguments parentName comment params rt).
Proof.
  intros s Hs. unfold recordEndpoint. destruct owner as [c|]; [|exact Hs].
  pose proof (genArgumentList_symtab arguments s) as G.
  destruct (genArgumentList arguments s) as [s1 [l|e]]; simpl in *; now rewrite G.
Qed.

Lemma keepsFresh_visitMethodDecorator owner check parentName comment params rt d :
  keepsFresh (visitMethodDecorator owner check parentName comment params rt d).
Proof.
  unfold visitMethodDecorator. destruct (callExpression d) as [[i a]|]; [|intros s Hs; exact Hs].
  destruct check; [apply keepsFresh_recordEndpoint|intros s Hs; exact Hs].
Qed.

Lemma keepsFresh_visit2 parentName sig : keepsFresh (visit2 symbolDoc parentName sig).
Proof.
  intros s Hs. unfold visit2.
  destruct (ps_name sig) as [propertyName|]; [|exact Hs].
  destruct (ps_type sig) as [type|]; [|exact Hs].
  destruct (String.eqb propertyName ""); [exact Hs|].
  set (first := match ps_tags sig with [] => _ | _ => _ end).
  assert (F : symtab (fst first) = symtab s).
  { unfold first. destruct (ps_tags sig); [reflexivity|].
    destruct (ps_parsed sig); reflexivity. }
  destruct first as [s1 [err|]]; simpl in *; [now rewrite F|].
  unfold attempt.
  destruct (typeToJSON _ _ _ _ _) as [[r x]| |] eqn:E; simpl; try now rewrite F.
  apply typeToJSON_noExpand_Ok in E; [|reflexivity]. destruct E as [-> _].
  destruct r as [desc|]; simpl; [|now rewrite F].
  destruct (lookup (symtab s1) parentName) as [entry|]; simpl; [|now rewrite F].
  destruct (e_members entry); simpl; [|now rewrite F].
  rewrite F. apply freshRegistry_update; [reflexivity|exact Hs].
Qed.

Lemma keepsFresh_visitClassDecorator visitMembers className fileName comment d :
  keepsFresh visitMembers ->
  keepsFresh (visitClassDecorator visitMembers className fileName comment d).
Proof.
  intros Hm. unfold visitClassDecorator.
  apply keepsFresh_andThen; [exact Hm|].
  apply keepsFresh_andThen.
  - intros s Hs. destruct (String.eqb (dname d) "controller").
    + unfold attempt, addController.
      destruct (lookup (symtab s) className); simpl; [exact Hs|].
      apply freshRegistry_assign; [exact Hs|reflexivity].
    + destruct (String.eqb (dname d) "router"); simpl; [|exact Hs].
      apply freshRegistry_assign; [exact Hs|reflexivity].
  - intros s Hs. destruct (callExpression d) as [[i a]|]; [|exact Hs].
    destruct (_ || _); [|exact Hs].
    destruct (lookup (symtab s) className); [|exact Hs].
    pose proof (genArgumentList_symtab a s) as G.
    destruct (genArgumentList a s) as [s1 [l|err]]; simpl in *; [|now rewrite G].
    rewrite G. apply freshRegistry_update; [reflexivity|exact Hs].
Qed.

Lemma keepsFresh_visit :
  forall node owner exported, keepsFresh (visit symbolDoc owner exported node).
Proof.
  induction node as [d n f c members IHm|d n c p t|d n c t|n c props|d k]
    using Node_nested_ind; intros owner exported.
  - assert (Hmembers : keepsFresh (each (visit symbolDoc (Some n) false) members)).
    { apply keepsFresh_each. intros a Ha. rewrite Forall_forall in IHm. now apply IHm. }
    cbn [visit]. destruct d as [ds|].
    + apply keepsFresh_tryLog. apply keepsFresh_each.
      intros a _. now apply keepsFresh_visitClassDecorator.
    + destruct exported; [|intros s Hs; exact Hs].
      apply keepsFresh_andThen; [exact Hmembers|].
      intros s Hs. simpl. apply freshRegistry_assign; [exact Hs|reflexivity].
  - cbn [visit]. destruct d as [ds|]; [|intros s Hs; exact Hs].
    apply keepsFresh_tryLog. apply keepsFresh_each. intros a _.
    destruct (isVerb (dname a)); apply keepsFresh_visitMethodDecorator.
  - cbn [visit]. destruct d as [ds|]; [|intros s Hs; exact Hs].
    apply keepsFresh_tryLog. apply keepsFresh_each. intros a _.
    apply keepsFresh_visitMethodDecorator.
  - cbn [visit]. destruct exported; [|intros s Hs; exact Hs].
    intros s Hs. apply keepsFresh_each; [intros a _; apply keepsFresh_visit2|].
    simpl. apply freshRegistry_assign; [exact Hs|reflexivity].
  - cbn [visit]. destruct d as [ds|]; [|intros s Hs; exact Hs].
    apply keepsFresh_tryLog. apply keepsFresh_each. intros a _ s Hs. exact Hs.
Qed.

Lemma freshRegistry_connectMethods l s s' :
  freshRegistry s -> connectMethods l s = Ok s' -> freshRegistry s'.
Proof.
  unfold connectMethods. revert s. induction l as [|a r IH]; intros s Hs H.
  - now injection H as <-.
  - apply forEach_cons_Ok in H. destruct H as (s1 & H1 & H2).
    apply (IH s1); [|exact H2].
    unfold connectMethod in H1.
    destruct (lookup s (className a)) as [c|]; [|now injection H1 as <-].
    destruct (e_methods c); [|discriminate]. injection H1 as <-.
    apply freshRegistry_update; [reflexivity|exact Hs].
Qed.

(** The registry [genSources] is called with is fresh. *)
Lemma pass1_registry_fresh program s e symtab1 :
  each (visitSourceFile symbolDoc) program (mkState [] [] [] []) = (s, e) ->
  connectMethods (endpoints s) (symtab s) = Ok symtab1 ->
  freshRegistry symtab1.
Proof.
  intros Hvisit Hconnect.
  apply (freshRegistry_connectMethods (l := endpoints s) (s := symtab s)); [|exact Hconnect].
  change (symtab s) with (symtab (fst (s, e))). rewrite <- Hvisit.
  apply keepsFresh_each.
  - intros [file nodes] _ x Hx. unfold visitSourceFile. simpl.
    apply keepsFresh_each; [|exact Hx].
    intros node _. apply keepsFresh_visit.
  - split; [constructor|reflexivity].
Qed.

End Pass1.

(* ================================================================== *)
(** * Registries given by their entries                                 *)
(* ================================================================== *)

Lemma allUnmarked_lookup s : allUnmarked s = true ->
  forall k e, lookup s k = Some e -> e_relevant e = false.
Proof.
  intros H k e Hk. apply lookup_Some_In in Hk.
  unfold allUnmarked in H. rewrite forallb_forall in H.
  apply H in Hk. simpl in Hk. now destruct (e_relevant e).
Qed.

Lemma definitions_keys s name :
  NoDup (keys s) ->
  (In name (keys (fst (symtabToSchemaDefinitions s)))
   <-> exists T, lookup s name = Some T /\ isRelevantType T = true).
Proof.
  intros ND. unfold symtabToSchemaDefinitions, keys. simpl. rewrite map_map.
  rewrite in_map_iff. split.
  - intros ([k e] & Hk & Hin). simpl in Hk. subst k.
    apply filter_In in Hin. destruct Hin as [Hin Hr].
    exists e. split; [now apply In_lookup_NoDup|exact Hr].
  - intros (T & HT & Hr). exists (name, T). split; [reflexivity|].
    apply filter_In. split; [now apply lookup_Some_In|exact Hr].
Qed.

(** Case analysis of reachability and of member lookups on a registry
    that is given by its entries. *)
Ltac registry_cases :=
  repeat match goal with
    | H : False |- _ => destruct H
    | H : _ \/ _ |- _ => destruct H
    | H : (_, _) = (_, _) |- _ => injection H as <- <-
    | H : Some _ = Some _ |- _ => injection H as <-
    | H : Some _ = None |- _ => discriminate H
    | H : None = Some _ |- _ => discriminate H
    | H : lookup _ _ = Some _ |- _ => vm_compute in H
    | H : e_members _ = Some _ |- _ => vm_compute in H
    | H : In _ _ |- _ => vm_compute in H
    | H : reaches _ _ _ |- _ => vm_compute in H; inversion H; subst; clear H
    | H : mentions _ _ |- _ => vm_compute in H; inversion H; subst; clear H
    end.




Lemma sampleRegistry_NoDup : NoDup (keys sampleRegistry).
Proof.
  repeat constructor; simpl; intuition discriminate.
Qed.

Lemma sample_C_unreachable :
  forall item t, In item [sampleEndpoint] -> In t (signatureTypes item) ->
                 ~ reaches sampleRegistry t "C".
Proof.
  intros item t [<-|[]] Ht R. vm_compute in Ht.
  destruct Ht as [<-|[<-|[]]]; registry_cases.
Qed.

(* ================================================================== *)
(** * A reference to a name that is not declared                        *)
(* ================================================================== *)

Section UndefinedReference.
Variable symbolDoc : TypeNode -> option string.







End UndefinedReference.

(* ================================================================== *)
(** * Doc-comment tags as rewritings                                    *)
(* ================================================================== *)

Lemma applyValueTag_onTyped s title v :
  applyValueTag s title v = onTyped (setValue title v) s.
Proof. reflexivity. Qed.

Lemma applyTypenameTag_onTyped s name :
  applyTypenameTag s name = onTyped (setType (Some name)) s.
Proof. reflexivity. Qed.

Lemma hasLiveType_setOneOf x s : hasLiveType (setOneOf x s) = hasLiveType s.
Proof. reflexivity. Qed.

Lemma s_oneOf_setOneOf x s : s_oneOf (setOneOf x s) = x.
Proof. reflexivity. Qed.

Lemma setOneOf_setOneOf x y s : setOneOf x (setOneOf y s) = setOneOf x s.
Proof. reflexivity. Qed.

Lemma onTyped_idempotent top :
  keepsShape top -> (forall s, top (top s) = top s) ->
  forall s, onTyped top (onTyped top s) = onTyped top s.
Proof.
  intros K I s. unfold onTyped at 2 3.
  destruct (hasLiveType s) eqn:L.
  - unfold onTyped. rewrite (proj1 (K s) L). apply I.
  - destruct (s_oneOf s) as [leaves|] eqn:O.
    + unfold onTyped.
      rewrite hasLiveType_setOneOf, L, s_oneOf_setOneOf, setOneOf_setOneOf.
      f_equal. f_equal. rewrite map_map. apply map_ext. intros leaf.
      destruct (hasLiveType leaf) eqn:Ll.
      * rewrite (proj1 (K leaf) Ll). apply I.
      * rewrite Ll. reflexivity.
    + unfold onTyped. rewrite L, O. reflexivity.
Qed.

Lemma onTyped_commute f g :
  keepsShape f -> keepsShape g -> (forall s, f (g s) = g (f s)) ->
  forall s, onTyped f (onTyped g s) = onTyped g (onTyped f s).
Proof.
  intros Kf Kg C s. unfold onTyped at 2 4.
  destruct (hasLiveType s) eqn:L.
  - unfold onTyped. rewrite (proj1 (Kg s) L), (proj1 (Kf s) L). apply C.
  - destruct (s_oneOf s) as [leaves|] eqn:O.
    + unfold onTyped.
      rewrite !hasLiveType_setOneOf, L, !s_oneOf_setOneOf, !setOneOf_setOneOf.
      f_equal. f_equal. rewrite !map_map. apply map_ext. intros leaf.
      destruct (hasLiveType leaf) eqn:Ll.
      * rewrite (proj1 (Kg leaf) Ll), (proj1 (Kf leaf) Ll). apply C.
      * rewrite Ll. reflexivity.
    + unfold onTyped. rewrite L, O. reflexivity.
Qed.

Lemma keepsShape_setMinimum v : keepsShape (setMinimum v).
Proof. intros s. split; [intros H; exact H|reflexivity]. Qed.

Lemma keepsShape_setMaximum v : keepsShape (setMaximum v).
Proof. intros s. split; [intros H; exact H|reflexivity]. Qed.

Lemma keepsShape_setValue title v : keepsShape (setValue title v).
Proof.
  unfold setValue. destruct (String.eqb title "minimum");
    [apply keepsShape_setMinimum|].
  destruct (String.eqb title "maximum"); [apply keepsShape_setMaximum|].
  intros s. split; auto.
Qed.

Lemma keepsShape_setType name :
  String.eqb name "null" = false -> keepsShape (setType (Some name)).
Proof.
  intros N s. split; [|reflexivity].
  intros _. unfold hasLiveType. simpl. now rewrite N.
Qed.

Lemma applyTag_act s t : applyTag s (Some t) = act (tagAction t) s.
Proof.
  unfold applyTag, tagAction.
  destruct (String.eqb (title t) "minimum" || String.eqb (title t) "maximum");
    [reflexivity|].
  destruct (String.eqb (title t) "type"); [|reflexivity].
  destruct (tag_type t) as [ty|]; [|reflexivity].
  destruct (String.eqb (tt_type ty) "NameExpression"); reflexivity.
Qed.

Lemma title_minmax t :
  String.eqb (title t) "minimum" || String.eqb (title t) "maximum" = true ->
  title t = "minimum" \/ title t = "maximum".
Proof.
  intros H. apply orb_true_iff in H.
  destruct H as [H|H]; apply String.eqb_eq in H; auto.
Qed.

Lemma setValue_idempotent title v s : setValue title v (setValue title v s) = setValue title v s.
Proof.
  unfold setValue. destruct (String.eqb title "minimum"); [reflexivity|].
  destruct (String.eqb title "maximum"); reflexivity.
Qed.

Lemma setValue_setType title v name s :
  setValue title v (setType (Some name) s) = setType (Some name) (setValue title v s).
Proof.
  unfold setValue. destruct (String.eqb title "minimum"); [reflexivity|].
  destruct (String.eqb title "maximum"); reflexivity.
Qed.

(** The rewriting of a tag that does not rename to "null" is well
    behaved. *)
Lemma tagAction_shape t top :
  renamesToNull t = false -> tagAction t = Rewrite top ->
  keepsShape top /\ forall s, top (top s) = top s.
Proof.
  unfold renamesToNull, tagAction. intros N A.
  destruct (String.eqb (title t) "minimum" || String.eqb (title t) "maximum").
  - injection A as <-. split; [apply keepsShape_setValue|].
    intros s. apply setValue_idempotent.
  - destruct (String.eqb (title t) "type"); [|discriminate].
    destruct (tag_type t) as [ty|]; [|discriminate].
    destruct (String.eqb (tt_type ty) "NameExpression"); [|discriminate].
    injection A as <-. simpl in N. split; [now apply keepsShape_setType|].
    reflexivity.
Qed.

Lemma tagActions_commute t1 t2 f g :
  title t1 <> title t2 ->
  tagAction t1 = Rewrite f -> tagAction t2 = Rewrite g ->
  forall s, f (g s) = g (f s).
Proof.
  unfold tagAction. intros D A1 A2 s.
  destruct (String.eqb (title t1) "minimum" || String.eqb (title t1) "maximum") eqn:V1;
    destruct (String.eqb (title t2) "minimum" || String.eqb (title t2) "maximum") eqn:V2.
  - injection A1 as <-. injection A2 as <-.
    destruct (title_minmax V1) as [E1|E1], (title_minmax V2) as [E2|E2];
      rewrite E1, E2 in *; try congruence; reflexivity.
  - injection A1 as <-.
    destruct (String.eqb (title t2) "type"); [|discriminate].
    destruct (tag_type t2) as [ty|]; [|discriminate].
    destruct (String.eqb (tt_type ty) "NameExpression"); [|discriminate].
    injection A2 as <-. apply setValue_setType.
  - injection A2 as <-.
    destruct (String.eqb (title t1) "type"); [|discriminate].
    destruct (tag_type t1) as [ty|]; [|discriminate].
    destruct (String.eqb (tt_type ty) "NameExpression"); [|discriminate].
    injection A1 as <-. symmetry. apply setValue_setType.
  - destruct (String.eqb (title t1) "type") eqn:T1; [|discriminate].
    destruct (String.eqb (title t2) "type") eqn:T2; [|discriminate].
    apply String.eqb_eq in T1, T2. congruence.
Qed.

Lemma tagAction_Fail t e :
  tagAction t = Fail e -> e = TypeError "Cannot read property 'type' of undefined".
Proof.
  unfold tagAction.
  destruct (String.eqb (title t) "minimum" || String.eqb (title t) "maximum");
    [discriminate|].
  destruct (String.eqb (title t) "type"); [|discriminate].
  destruct (tag_type t) as [ty|]; [|congruence].
  destruct (String.eqb (tt_type ty) "NameExpression"); discriminate.
Qed.

Lemma applyBoth_same s t :
  renamesToNull t = false -> applyBoth s t t = applyTag s (Some t).
Proof.
  intros N. unfold applyBoth. rewrite applyTag_act.
  destruct (tagAction t) as [top| |e] eqn:A; cbn [bind act].
  - rewrite applyTag_act, A. cbn [act].
    destruct (tagAction_shape N A) as [K I]. now rewrite onTyped_idempotent.
  - rewrite applyTag_act, A. reflexivity.
  - reflexivity.
Qed.

(* ================================================================== *)
(** * Traversal and emitters: auxiliary facts                           *)
(* ================================================================== *)

Lemma tryLog_None r : snd (tryLog r) = None.
Proof. destruct r as [s [e|]]; reflexivity. Qed.





(* ================================================================== *)
(** * The claims                                                        *)
(* ================================================================== *)

(** ** C1: marking on a cyclic pair of declarations *)




(** ** C2: the definitions map holds the relevant declarations *)

(** C2: when the marking pass over the endpoints has completed, starting
    from a registry as pass 1 leaves it (one entry per key, no flag set:
    [pass1_registry_fresh]), a declared type is a key of the definitions
    map exactly when its relevance flag is set, and a declared type that
    no parameter type or return type of any endpoint reaches is not a key
    of the map. *)
Theorem definitions_iff_relevant
  (symbolDoc : TypeNode -> option string) (fuel : nat) (items : list DecoratedFunction)
  (symtab0 symtab1 : Symtab) (entries : list MethodEntry) (name : string) (T : Entry) :
  freshRegistry symtab0 ->
  methodEntries symbolDoc fuel items symtab0 = Ok (entries, symtab1) ->
  lookup symtab1 name = Some T -> e_type T = TypeDecl ->
  let definitions := fst (symtabToSchemaDefinitions symtab1) in
  (In name (keys definitions) <-> e_relevant T = true)
  /\ ((forall item t, In item items -> In t (signatureTypes item) ->
                      ~ reaches symtab0 t name)
      -> ~ In name (keys definitions)).
Proof.
  intros [ND Hun] Hpass HT Htype definitions.
  pose proof (methodEntries_Ok Hpass) as M.
  assert (ND1 : NoDup (keys symtab1)) by (destruct M as [-> _]; exact ND).
  assert (Hkeys : In name (keys definitions) <-> e_relevant T = true).
  { unfold definitions. rewrite (definitions_keys name ND1). split.
    - intros (T' & HT' & Hr). assert (T' = T) by congruence. subst T'.
      unfold isRelevantType in Hr. now apply andb_true_iff in Hr.
    - intros Hr. exists T. split; [exact HT|].
      unfold isRelevantType. rewrite Htype, Hr. reflexivity. }
  split; [exact Hkeys|].
  intros Hunreach Hin. apply Hkeys in Hin.
  destruct (marksWithin_back M HT) as (e0 & He0 & _).
  pose proof (allUnmarked_lookup Hun He0) as Hfalse.
  destruct M as [_ M]. destruct (M name e0 He0) as [H1|[H1 (item & Hitem & t & Ht & Hr)]].
  - assert (T = e0) by congruence. subst. congruence.
  - exact (Hunreach item t Hitem Ht Hr).
Qed.

(** Witness of C2: the endpoint [list(w: A): string] over [A], [B] and
    the unreferenced [C]; [C] is not among the definitions. *)
Lemma definitions_iff_relevant_witness :
  freshRegistry sampleRegistry
  /\ methodEntries noDoc 3 [sampleEndpoint] sampleRegistry = Ok (sampleEntries, sampleMarked)
  /\ lookup sampleMarked "C" = Some (typeEntryWith [])
  /\ e_type (typeEntryWith []) = TypeDecl
  /\ (In "C" (keys (fst (symtabToSchemaDefinitions sampleMarked)))
      <-> e_relevant (typeEntryWith []) = true)
  /\ ~ In "C" (keys (fst (symtabToSchemaDefinitions sampleMarked))).
Proof.
  assert (H3 : methodEntries noDoc 3 [sampleEndpoint] sampleRegistry
               = Ok (sampleEntries, sampleMarked)) by (vm_compute; reflexivity).
  assert (H4 : lookup sampleMarked "C" = Some (typeEntryWith [])) by reflexivity.
  assert (H5 : e_type (typeEntryWith []) = TypeDecl) by reflexivity.
  assert (H0 : freshRegistry sampleRegistry)
    by (split; [exact sampleRegistry_NoDup|reflexivity]).
  pose proof (definitions_iff_relevant H0 H3 H4 H5) as [Hiff Hout].
  split; [exact H0|]. split; [exact H3|]. split; [exact H4|]. split; [exact H5|].
  split; [exact Hiff|]. exact (Hout sample_C_unreachable).
Defined.

(** ** C3: a controller declared twice *)

(** C3, as stated, fails: with two controllers named [Widgets] the run
    prints the error and goes on to write the three artifacts. *)
Lemma duplicate_controller_run_completes :
  let run := generate noDoc 8 duplicateProgram "widgets" in
  snd run = Ok tt
  /\ In "multiple references to same class: Widgets" (console (fst run))
  /\ checkFile (fst run) <> None
  /\ swaggerFile (fst run) <> None
  /\ routesFile (fst run) <> None.
Proof.
  vm_compute. repeat split; try discriminate. tauto.
Qed.

(** C3, amended: declaring a controller under a name the registry already
    has makes [addController] throw "multiple references to same class",
    the registry staying as it was; [visit] catches the exception and
    prints it, and the traversal continues. *)
Theorem duplicate_controller_is_logged
  (symbolDoc : TypeNode -> option string) (owner : option string) (exported : bool)
  (d : Decorator) (name fileName comment : string) (members : list Node)
  (s s1 : State) (entry : Entry) :
  dname d = "controller" ->
  each (visit symbolDoc (Some name) false) members s = (s1, None) ->
  lookup (symtab s1) name = Some entry ->
  addController name fileName (Some comment) (symtab s1)
  = Throw (Thrown ("multiple references to same class: " ++ name))
  /\ visit symbolDoc owner exported
       (ClassDeclaration (Some [d]) name fileName comment members) s
     = (log ("multiple references to same class: " ++ name) s1, None).
Proof.
  intros Hd Hmembers Hentry.
  assert (A : addController name fileName (Some comment) (symtab s1)
              = Throw (Thrown ("multiple references to same class: " ++ name)))
    by (unfold addController; rewrite Hentry; reflexivity).
  split; [exact A|].
  cbn [visit each]. unfold visitClassDecorator.
  rewrite Hmembers. cbn [andThen]. rewrite Hd. cbn [String.eqb].
  change (String.eqb "controller" "controller") with true. cbn iota.
  rewrite A. reflexivity.
Qed.

(** Witness of C3 (amended): a second [@controller class Widgets]. *)
Lemma duplicate_controller_is_logged_witness :
  dname (decorator "controller" []) = "controller"
  /\ each (visit noDoc (Some "Widgets") false) [] widgetsRegistered = (widgetsRegistered, None)
  /\ lookup (symtab widgetsRegistered) "Widgets"
     = Some (newClassEntry ControllerDecl "Widgets" "widgets.ts" (Some ""))
  /\ visit noDoc None true
       (ClassDeclaration (Some [decorator "controller" []]) "Widgets" "more.ts" "" [])
       widgetsRegistered
     = (log "multiple references to same class: Widgets" widgetsRegistered, None).
Proof.
  split; [reflexivity|]. split; [reflexivity|]. split; [reflexivity|].
  exact (proj2 (@duplicate_controller_is_logged noDoc None true
                  (decorator "controller" []) "Widgets" "more.ts" "" []
                  widgetsRegistered widgetsRegistered _ eq_refl eq_refl eq_refl)).
Defined.

(** ** C4: a reference to an undeclared name *)




(** ** C5: the path of an endpoint in the document *)

(** C5, at the failing input [@get('all') list()]: the document lists
    the endpoint under its method name, [/api/widgets/list], while the
    route module registers it at the decorator argument, [/all]. *)
Lemma document_path_ignores_decorator_argument :
  documentPaths (generate noDoc 8 widgetsProgram "widgets")
  = Some ["/api/widgets/list"; "/api/widgets/one"]
  /\ routePaths (generate noDoc 8 widgetsProgram "widgets") = Some ["/all"; "/one"].
Proof. split; vm_compute; reflexivity. Qed.

(** ** C6: the response schema of an endpoint *)

(** C6, at the failing input [@get() one(): Widget]: the response schema
    of a return type that is not a [Promise] is the reference
    [#/definitions/Widget], not the inlined definition that
    [Promise<Widget[]>] gets; an absent return type gives no schema in
    [genSwaggerPaths], but a run over such an endpoint ends in
    [parameterListToJSON] before any document is written. *)
Lemma plain_return_type_is_not_expanded :
  documentResponse (generate noDoc 8 widgetsProgram "widgets") "/api/widgets/one" "get"
  = Some (Response200 (setRef (Some "#/definitions/Widget") emptySchema))
  /\ documentResponse (generate noDoc 8 widgetsProgram "widgets") "/api/widgets/list" "get"
     = Some (Response200 (setItems (Some widgetDefinition) (typeOnly "array")))
  /\ (forall symbolDoc symtab,
        exists r, returnTypedefOf symbolDoc (Some (ref "Widget")) symtab = Ok (Some r, symtab)
                  /\ s_ref r = Some "#/definitions/Widget" /\ s_properties r = None)
  /\ (forall symbolDoc symtab, returnTypedefOf symbolDoc None symtab = Ok (None, symtab))
  /\ generate noDoc 8 untypedProgram "ping"
     = (mkFiles [] None None None ["visiting file:  ping.ts"],
        Throw (TypeError "Cannot read property 'constructor' of undefined")).
Proof.
  split; [vm_compute; reflexivity|]. split; [vm_compute; reflexivity|].
  split.
  { intros symbolDoc symtab. unfold returnTypedefOf. simpl.
    destruct (symbolDoc _); eexists;
      (split; [reflexivity|split; reflexivity]). }
  split; [reflexivity|]. vm_compute. reflexivity.
Qed.

(** ** C7: an endpoint whose class is not a controller *)




(** ** C8: a router declared under a name already in use *)

(** C8, at the failing input: [addController] refuses a class name that
    is already registered, [addRouter] replaces the entry. *)
Lemma addRouter_overwrites :
  let registry := [("Api", newClassEntry ControllerDecl "Api" "api.ts" (Some "first"))] in
  addController "Api" "other.ts" (Some "second") registry
  = Throw (Thrown "multiple references to same class: Api")
  /\ addRouter "Api" "other.ts" (Some "second") registry
     = [("Api", newClassEntry RouterDecl "Api" "other.ts" (Some "second"))].
Proof. split; reflexivity. Qed.

(** ** C9: applying doc-comment tags *)

(** C9, as stated, fails: two [minimum] tags with different values leave
    the value of the one applied last.  A [type] tag that names "null"
    switches the fragment to untyped for the tags that follow: it does
    not commute with a [minimum] tag, and on a typed fragment whose
    [oneOf] has typed leaves it is not idempotent. *)
Lemma minimum_tags_do_not_commute :
  s_type (typeOnly "number") = Some "number"
  /\ applyBoth (typeOnly "number") (minimumTag "1") (minimumTag "2")
     = Ok (setMinimum (Some (Num 2)) (typeOnly "number"))
  /\ applyBoth (typeOnly "number") (minimumTag "2") (minimumTag "1")
     = Ok (setMinimum (Some (Num 1)) (typeOnly "number"))
  /\ applyBoth (typeOnly "number") (minimumTag "1") (minimumTag "2")
     <> applyBoth (typeOnly "number") (minimumTag "2") (minimumTag "1")
  /\ applyBoth (typeOnly "number") (typeTag "null") (minimumTag "1")
     = Ok (typeOnly "null")
  /\ applyBoth (typeOnly "number") (minimumTag "1") (typeTag "null")
     = Ok (setMinimum (Some (Num 1)) (typeOnly "null"))
  /\ applyTag (setOneOf (Some [typeOnly "number"]) (typeOnly "string"))
       (Some (typeTag "null"))
     = Ok (setOneOf (Some [typeOnly "number"]) (typeOnly "null"))
  /\ applyBoth (setOneOf (Some [typeOnly "number"]) (typeOnly "string"))
       (typeTag "null") (typeTag "null")
     = Ok (setOneOf (Some [typeOnly "null"]) (typeOnly "null")).
Proof.
  repeat split; try reflexivity. vm_compute. discriminate.
Qed.

(** C9, amended: for tags that do not rename the type to "null",
    applying a tag twice is applying it once, and two tags commute when
    their titles differ (or they are the same tag). *)
Theorem applyTag_idempotent_and_commutes (s : Schema) (t1 t2 : Tag) :
  renamesToNull t1 = false -> renamesToNull t2 = false ->
  title t1 <> title t2 \/ t1 = t2 ->
  applyBoth s t1 t1 = applyTag s (Some t1)
  /\ applyBoth s t2 t2 = applyTag s (Some t2)
  /\ applyBoth s t1 t2 = applyBoth s t2 t1.
Proof.
  intros N1 N2 D.
  split; [now apply applyBoth_same|]. split; [now apply applyBoth_same|].
  destruct D as [D| ->]; [|reflexivity].
  unfold applyBoth. rewrite !applyTag_act.
  destruct (tagAction t1) as [f| |e1] eqn:A1; destruct (tagAction t2) as [g| |e2] eqn:A2;
    cbn [bind act]; rewrite ?applyTag_act, ?A1, ?A2; cbn [act]; try reflexivity.
  - destruct (tagAction_shape N1 A1) as [Kf _], (tagAction_shape N2 A2) as [Kg _].
    f_equal. symmetry. apply onTyped_commute; auto.
    intros x. apply (tagActions_commute D A1 A2).
  - rewrite (tagAction_Fail A1), (tagAction_Fail A2). reflexivity.
Qed.

(** Witness of C9 (amended): [minimum 1] and [maximum 9] on the schema
    of [any]. *)
Lemma applyTag_idempotent_and_commutes_witness :
  renamesToNull (minimumTag "1") = false
  /\ renamesToNull (mkTag "maximum" (Some "9") None) = false
  /\ (title (minimumTag "1") <> title (mkTag "maximum" (Some "9") None)
      \/ minimumTag "1" = mkTag "maximum" (Some "9") None)
  /\ applyBoth anySchema (minimumTag "1") (mkTag "maximum" (Some "9") None)
     = applyBoth anySchema (mkTag "maximum" (Some "9") None) (minimumTag "1").
Proof.
  assert (D : title (minimumTag "1") <> title (mkTag "maximum" (Some "9") None)
              \/ minimumTag "1" = mkTag "maximum" (Some "9") None)
    by (left; discriminate).
  split; [reflexivity|]. split; [reflexivity|]. split; [exact D|].
  exact (proj2 (proj2 (applyTag_idempotent_and_commutes anySchema
                         (t1 := minimumTag "1") (t2 := mkTag "maximum" (Some "9") None)
                         eq_refl eq_refl D))).
Defined.

(** ** C10: the schema of [any] *)

(** C10: the [any] keyword translates to the [oneOf] of object, number
    and string, which is neither no schema nor the bare object schema. *)
Theorem any_keyword_schema :
  (forall jsDoc, tokenObjectToJSON AnyKeyword jsDoc = Ok (Some anySchema))
  /\ (forall options symtab,
        typeToJSON (fun _ => None) (TokenObject AnyKeyword) [] options symtab
        = Ok (Some anySchema, symtab))
  /\ anySchema <> typeOnly "object"
  /\ anySchema
     = mkSchema None None None
         (Some [mkSchema (Some "object") None None None None None None None None None None;
                mkSchema (Some "number") None None None None None None None None None None;
                mkSchema (Some "string") None None None None None None None None None None])
         None None None None None None None.
Proof.
  split; [reflexivity|]. split; [|split; [discriminate|reflexivity]].
  intros options symtab. destruct options as [[e [d|]]|]; reflexivity.
Qed.
